(** * DENNIS: a shallow embedding of the orchestration and storage core

    The development follows the layout of the repository:
    - [api/v1]          request validation and the API error kinds;
    - [app/config]      validation and reading of the configuration;
    - [app/pkg/build]   the build information;
    - [app/models]      Query / Lookup / Record and [RecordFromRR];
    - [app/db]          the storage interface and its sentinel error;
    - [app/db/file]     the single-document JSON file backend;
    - [app/db/redis]    the keyed-document RedisJSON backend;
    - [app]             the Server (CreateQuery, GetQuery, resolve, resolveAll)
                        and the handlers of the user interface;
    - [main]            the choice of the backend.

    Go strings are byte strings ([string]); Go [int] values are [Z]; a slice
    is [option (list A)] so that the nil slice ([None]) and the empty slice
    ([Some []]) stay distinct, as they are on the wire ([null] against [[]]). *)

From Stdlib Require Import ZArith String Ascii List Bool Lia.
From Stdlib Require Import DecimalString DecimalN.
From stdpp Require Import base option list strings gmap.

Local Open Scope string_scope.
Local Open Scope Z_scope.
Local Open Scope list_scope.

(** ** Go slices *)

Definition slice (A : Type) : Type := option (list A).

Definition slice_elems {A} (s : slice A) : list A := default [] s.

(** [append(s, x)]: appending to the nil slice allocates. *)
Definition slice_append {A} (s : slice A) (x : A) : slice A :=
  Some (slice_elems s ++ [x]).

Definition slice_len {A} (s : slice A) : nat := length (slice_elems s).

(** ** Regular expressions (package regexp, matching of a whole string)

    The source holds one pattern, anchored on both sides; [MatchString] on an
    anchored pattern is membership of the whole string in the language.
    Matching is by derivatives. *)

Module Regexp.

Inductive regex : Type :=
| Empty
| Eps
| Class (p : ascii -> bool)
| Seq (r1 r2 : regex)
| Alt (r1 r2 : regex)
| Star (r : regex).

Fixpoint nullable (r : regex) : bool :=
  match r with
  | Empty => false
  | Eps => true
  | Class _ => false
  | Seq r1 r2 => nullable r1 && nullable r2
  | Alt r1 r2 => nullable r1 || nullable r2
  | Star _ => true
  end.

(** Smart constructors keep derivatives small. *)
Definition seq (r1 r2 : regex) : regex :=
  match r1, r2 with
  | Empty, _ => Empty
  | _, Empty => Empty
  | Eps, _ => r2
  | _, Eps => r1
  | _, _ => Seq r1 r2
  end.

Definition alt (r1 r2 : regex) : regex :=
  match r1, r2 with
  | Empty, _ => r2
  | _, Empty => r1
  | _, _ => Alt r1 r2
  end.

Fixpoint deriv (c : ascii) (r : regex) : regex :=
  match r with
  | Empty => Empty
  | Eps => Empty
  | Class p => if p c then Eps else Empty
  | Seq r1 r2 =>
      if nullable r1
      then alt (seq (deriv c r1) r2) (deriv c r2)
      else seq (deriv c r1) r2
  | Alt r1 r2 => alt (deriv c r1) (deriv c r2)
  | Star r1 => seq (deriv c r1) (Star r1)
  end.

Fixpoint matches (r : regex) (s : string) : bool :=
  match s with
  | EmptyString => nullable r
  | String c s' => matches (deriv c r) s'
  end.

(** Derived forms of the concrete syntax. *)
Definition Lit (c : ascii) : regex := Class (Ascii.eqb c).
Definition Plus (r : regex) : regex := Seq r (Star r).
Definition Opt (r : regex) : regex := Alt Eps r.

Fixpoint Str (s : string) : regex :=
  match s with
  | EmptyString => Eps
  | String c s' => Seq (Lit c) (Str s')
  end.

(** [r{0,n}] and [r{m,n}] for [m <= n]. *)
Fixpoint UpTo (n : nat) (r : regex) : regex :=
  match n with
  | O => Eps
  | S n' => Opt (Seq r (UpTo n' r))
  end.

Fixpoint Repeat (m n : nat) (r : regex) : regex :=
  match m, n with
  | O, _ => UpTo n r
  | S m', S n' => Seq r (Repeat m' n' r)
  | S _, O => Empty
  end.

Definition in_range (lo hi : ascii) (c : ascii) : bool :=
  (N_of_ascii lo <=? N_of_ascii c)%N && (N_of_ascii c <=? N_of_ascii hi)%N.

(** The language of a pattern. *)
Inductive lang : regex -> string -> Prop :=
| LEps : lang Eps ""
| LClass p c : p c = true -> lang (Class p) (String c "")
| LSeq r1 r2 s1 s2 : lang r1 s1 -> lang r2 s2 -> lang (Seq r1 r2) (s1 +:+ s2)
| LAltL r1 r2 s : lang r1 s -> lang (Alt r1 r2) s
| LAltR r1 r2 s : lang r2 s -> lang (Alt r1 r2) s
| LStarNil r : lang (Star r) ""
| LStarCons r s1 s2 :
    lang r s1 -> lang (Star r) s2 -> lang (Star r) (s1 +:+ s2).

End Regexp.

(** ** strconv and net: the two library functions the configuration and the
    Server format with *)

(** [strconv.Itoa] *)
Definition Itoa (i : Z) : string := NilEmpty.string_of_int (Z.to_int i).

Fixpoint contains_byte (c : ascii) (s : string) : bool :=
  match s with
  | EmptyString => false
  | String c' s' => Ascii.eqb c c' || contains_byte c s'
  end.

Fixpoint all_bytes (p : ascii -> bool) (s : string) : bool :=
  match s with
  | EmptyString => true
  | String c s' => p c && all_bytes p s'
  end.

Fixpoint last_byte (s : string) : option ascii :=
  match s with
  | EmptyString => None
  | String c EmptyString => Some c
  | String _ s' => last_byte s'
  end.

(** [net.JoinHostPort]: a host with a colon in it is put in brackets. *)
Definition JoinHostPort (host port : string) : string :=
  if contains_byte ":" host then "[" +:+ host +:+ "]:" +:+ port
  else host +:+ ":" +:+ port.

(** ** api/v1: error kinds and request validation *)

Module apiv1.

Definition ErrorCodeBadRequest : string := "BadRequest".
Definition ErrorCodeNotFound : string := "NotFound".
Definition ErrorCodeInternal : string := "Internal".

Record Error : Type := mkError {
  Code : string;
  Field : string;
  Message : string;
}.

#[global] Instance Error_eq_dec : EqDecision Error.
Proof. solve_decision. Defined.

Record CreateQueryRequest : Type := {
  Type_ : string;
  Name : string;
}.

Record GetQueryRequest : Type := {
  ID : string;
}.

(** The record types [validRecordType] switches on. *)
Definition supported_types : list string :=
  ["A"; "AAAA"; "CAA"; "CNAME"; "DNSKEY"; "MX"; "NS"; "PTR"; "SOA"; "SRV";
   "SVCB"; "TXT"].

Definition validRecordType (t : string) : bool :=
  if String.eqb t "A" then true
  else if String.eqb t "AAAA" then true
  else if String.eqb t "CAA" then true
  else if String.eqb t "CNAME" then true
  else if String.eqb t "DNSKEY" then true
  else if String.eqb t "MX" then true
  else if String.eqb t "NS" then true
  else if String.eqb t "PTR" then true
  else if String.eqb t "SOA" then true
  else if String.eqb t "SRV" then true
  else if String.eqb t "SVCB" then true
  else if String.eqb t "TXT" then true
  else false.

Import Regexp.

(** [[a-z0-9]] *)
Definition alnum (c : ascii) : bool :=
  in_range "a" "z" c || in_range "0" "9" c.

(** [[a-z0-9\-\.]] *)
Definition label_char (c : ascii) : bool :=
  alnum c || Ascii.eqb c "-" || Ascii.eqb c ".".

(** [^([a-z0-9\-\.]+)\.((xn\-\-)?[a-z0-9]{1,18})$] *)
Definition hostname : regex :=
  Seq (Plus (Class label_char))
    (Seq (Lit ".")
       (Seq (Opt (Str "xn--")) (Repeat 1 18 (Class alnum)))).

Definition validRecordName (n : string) : bool := matches hostname n.

Definition BadRequest (field message : string) : Error :=
  mkError ErrorCodeBadRequest field message.

(** [CreateQueryRequest.Validate]; [None] as argument is the nil
    receiver, [None] as result is the nil error. *)
Definition CreateQueryRequest_Validate (c : option CreateQueryRequest)
  : option Error :=
  match c with
  | None => Some (BadRequest "." "Request body is required")
  | Some c =>
      if String.eqb (Type_ c) "" then
        Some (BadRequest ".type" "Type of record is required")
      else if String.eqb (Name c) "" then
        Some (BadRequest ".name" "Name of domain is required")
      else if negb (validRecordType (Type_ c)) then
        Some (BadRequest ".type" "Record type is not supported")
      else if (String.length (Name c) <? 4)%nat then
        Some (BadRequest ".name" "Name of domain must be at least 4 characters")
      else if (253 <? String.length (Name c))%nat then
        Some (BadRequest ".name"
                "Name of domain cannot be longest than 253 characters")
      else if negb (validRecordName (Name c)) then
        Some (BadRequest ".name" "Name of domain is invalid")
      else None
  end.

Definition GetQueryRequest_Validate (g : option GetQueryRequest)
  : option Error :=
  match g with
  | None => Some (BadRequest "." "Request body is required")
  | Some g =>
      if String.eqb (ID g) "" then
        Some (BadRequest ".id" "ID of Query is required")
      else None
  end.

(** [Error.StatusCode], with the constants of net/http. *)
Definition StatusBadRequest : Z := 400.
Definition StatusNotFound : Z := 404.
Definition StatusInternalServerError : Z := 500.

Definition StatusCode (e : Error) : Z :=
  if String.eqb (Code e) ErrorCodeBadRequest then StatusBadRequest
  else if String.eqb (Code e) ErrorCodeNotFound then StatusNotFound
  else StatusInternalServerError.


End apiv1.

(** ** app/config: validation of the file backend configuration *)

Module config.

Record ValidationError : Type := mkValidationError {
  Field : string;
  Message : string;
}.

Record FileDB : Type := {
  Path : string;
}.

Record RedisDB : Type := {
  Addr : string;
  DB_index : Z;
  Username : string;
  Password : string;
}.

(** [config.DB]: each backend is a pointer, nil when not configured. *)
Record DB : Type := {
  File : option FileDB;
  Redis : option RedisDB;
}.

(** [filepath.IsAbs] as package path/filepath defines it on Unix, the
    platform of the repository's Dockerfile. *)
Definition filepath_IsAbs (path : string) : bool :=
  String.prefix "/" path.

(** [ValidationError.prefix] *)
Definition prefix (ve : option ValidationError) (p : string)
  : option ValidationError :=
  match ve with
  | None => None
  | Some ve =>
      let p := if String.eqb (Field ve) "" then p
               else p +:+ "." +:+ Field ve in
      Some (mkValidationError p (Message ve))
  end.

Section Validate.
(** The platform's notion of an absolute path. *)
Variable IsAbs : string -> bool.

(** [FileDB.validate] *)
Definition FileDB_validate (f : FileDB) : option ValidationError :=
  if String.eqb (Path f) "" then
    Some (mkValidationError "path" "path to local file is required")
  else if IsAbs (Path f) then
    Some (mkValidationError "path" "path is not an absolute path")
  else None.

(** [RedisDB.validate] *)
Definition RedisDB_validate (r : RedisDB) : option ValidationError :=
  if String.eqb (Addr r) "" then
    Some (mkValidationError "addr" "redis server address is required")
  else if DB_index r <? 0 then
    Some (mkValidationError "db" "redis database must be zero or greater")
  else None.

(** [DB.validate]; in its second case the test for a configured file
    backend cannot succeed, the first case having been skipped. *)
Definition DB_validate (d : DB) : option ValidationError :=
  match File d, Redis d with
  | Some f, Some _ =>
      Some (mkValidationError "file"
              "only one database can be configured at once")
  | Some f, None => prefix (FileDB_validate f) "file"
  | None, Some r => prefix (RedisDB_validate r) "redis"
  | None, None =>
      Some (mkValidationError ""
              "at least file, postgres or redis configuration is required")
  end.

(** [ValidationError.prefixIdx] *)
Definition prefixIdx (ve : option ValidationError) (p : string) (i : Z)
  : option ValidationError :=
  match ve with
  | None => None
  | Some ve =>
      Some (mkValidationError (p +:+ "[" +:+ Itoa i +:+ "]." +:+ Field ve)
              (Message ve))
  end.

(** [ValidationError.Error] *)
Definition ValidationError_string (ve : ValidationError) : string :=
  Field ve +:+ ": " +:+ Message ve.

Record Listener : Type := {
  Listener_Addr : string;
}.

Record Resolver : Type := {
  Resolver_Name : string;
  Resolver_Addr : string;
  Resolver_Port : Z;
}.

Record Logging : Type := {
  Debug : bool;
  JSON : bool;
}.

(** [Config]; [Listen] and the elements of [Resolvers] are pointers. *)
Record Config : Type := mkConfig {
  Version : Z;
  Config_Logging : Logging;
  Listen : option Listener;
  Resolvers : list (option Resolver);
  Config_DB : DB;
}.

(** [Listener.validate] *)
Definition Listener_validate (l : option Listener) : option ValidationError :=
  match l with
  | None => Some (mkValidationError "" "listener is required")
  | Some l =>
      if String.eqb (Listener_Addr l) "" then
        Some (mkValidationError "addr" "addr to listen on is required")
      else None
  end.

(** [Resolver.validate] *)
Definition Resolver_validate (r : option Resolver) : option ValidationError :=
  match r with
  | None => Some (mkValidationError "" "resolver is required")
  | Some r =>
      if String.eqb (Resolver_Name r) "" then
        Some (mkValidationError "name" "name of resolver is required")
      else if String.eqb (Resolver_Addr r) "" then
        Some (mkValidationError "addr" "addr of resolver is required")
      else None
  end.

(** The loop of [Config.Validate] over the resolvers, from index [i]. *)
Fixpoint validate_resolvers (i : nat) (rs : list (option Resolver))
  : option ValidationError :=
  match rs with
  | [] => None
  | r :: rs' =>
      match Resolver_validate r with
      | Some err => prefixIdx (Some err) "resolvers" (Z.of_nat i)
      | None => validate_resolvers (Datatypes.S i) rs'
      end
  end.

(** [Config.Validate]: the first invalid field. *)
Definition Config_Validate (c : Config) : option ValidationError :=
  if negb (Version c =? 1) then
    Some (mkValidationError "version" "unsupported config version")
  else
    match Listener_validate (Listen c) with
    | Some err => prefix (Some err) "listen"
    | None =>
        match validate_resolvers 0 (Resolvers c) with
        | Some err => Some err
        | None =>
            match DB_validate (Config_DB c) with
            | Some err => prefix (Some err) "db"
            | None => None
            end
        end
    end.

(** What [Read] can fail with: the error of opening the file, the wrapped
    error of the YAML decoder, or a ValidationError. *)
Inductive read_error : Type :=
| OpenError (msg : string)
| UnmarshalError (msg : string)
| Invalid (ve : ValidationError).

(** [Read], over the two steps that leave the process: opening the file
    at a path and decoding its contents into a Config. *)
Definition Read (open : string -> string + string)
  (decode : string -> Config + string) (path : string)
  : Config + read_error :=
  match open path with
  | inr msg => inr (OpenError msg)
  | inl contents =>
      match decode contents with
      | inr msg => inr (UnmarshalError ("unmarshal: " +:+ msg))
      | inl cfg =>
          let cfg :=
            if Version cfg <? 1 then
              mkConfig 1 (Config_Logging cfg) (Listen cfg) (Resolvers cfg)
                (Config_DB cfg)
            else cfg in
          match Config_Validate cfg with
          | Some err => inr (Invalid err)
          | None => inl cfg
          end
      end
  end.
End Validate.

End config.

(** ** app/pkg/build *)

Module build.

Section Build.
(** The package variable [commit], set when the binary is linked. *)
Variable commit : string.

(** [GetCommit]; [None] is the run-time panic of slicing with a negative
    bound. *)
Definition GetCommit (n : Z) : option string :=
  if n <? Z.of_nat (String.length commit) then
    if n <? 0 then None
    else Some (String.substring 0 (Z.to_nat n) commit)
  else Some commit.
End Build.

End build.

(** ** Errors

    Go error values as the repository builds and inspects them: the sentinel
    of package db, the sentinels of the libraries it tests for, opaque
    library errors, [fmt.Errorf] with one wrapping verb, and the API error
    of package apiv1. *)

Inductive error : Type :=
| ErrQueryNotFound
| context_Canceled
| redis_Nil
| LibError (msg : string)
| Errorf (format : string) (err : error)
| ApiError (e : apiv1.Error).

#[global] Instance error_eq_dec : EqDecision error.
Proof. solve_decision. Defined.

(** [errors.Is]: compares, then unwraps. *)
Fixpoint errors_Is (err target : error) : bool :=
  if decide (err = target) then true
  else match err with
       | Errorf _ err' => errors_Is err' target
       | _ => false
       end.

(** [errors.Is] on a possibly nil error. *)
Definition errors_Is_opt (err : option error) (target : error) : bool :=
  match err with
  | None => false
  | Some e => errors_Is e target
  end.

(** A Go result pair [(value, error)] of which exactly one side is set. *)
Inductive result (A : Type) : Type :=
| Ok (a : A)
| Err (e : error).
Arguments Ok {A} a.
Arguments Err {A} e.

(** ** External libraries

    What the repository takes from the standard library and from its
    dependencies, as an interface: package time (a [Time] is a UTC instant
    without monotonic reading, as [time.Now().UTC()] returns it), gofrs/uuid,
    net/netip and miekg/dns. *)

Class Externals : Type := {
  Time : Type;
  time_zero : Time;
  (** [t.Format(time.RFC3339Nano)], which is also the text of MarshalJSON *)
  time_Format : Time -> string;
  (** the parser behind UnmarshalJSON *)
  time_Parse : string -> option Time;

  UUID : Type;
  UUID_eq_dec :: EqDecision UUID;
  uuid_Nil : UUID;
  uuid_String : UUID -> string;
  uuid_FromString : string -> option UUID;

  netip_Addr : Type;
  Addr_String : netip_Addr -> string;
  DNSKEY_rdata : Type;
  DNSKEY_String : DNSKEY_rdata -> string;
  SOA_rdata : Type;
  SOA_String : SOA_rdata -> string;
  (** the maps [dns.RcodeToString] and [dns.StringToType] *)
  RcodeToString : Z -> option string;
  StringToType : string -> option Z;
}.

(** The contract of the text forms: parsing a formatted value gives it back. *)
Class ExternalsLaws (X : Externals) : Prop := {
  time_Parse_Format : forall t : Time, time_Parse (time_Format t) = Some t;
  uuid_FromString_String :
    forall u : UUID, uuid_FromString (uuid_String u) = Some u;
}.

(** ** encoding/json, at the level of document trees *)

Module json.

#[warnings="-register-all"]
Inductive value : Type :=
| JNull
| JBool (b : bool)
| JNum (n : Z)
| JStr (s : string)
| JArr (xs : list value)
| JObj (fs : list (string * value)).

(** The member a decoder ends up with for [key]: members are assigned in
    document order, so a later one overwrites. *)
Fixpoint obj_lookup (key : string) (fs : list (string * value))
  : option value :=
  match fs with
  | [] => None
  | (k, v) :: fs' =>
      match obj_lookup key fs' with
      | Some v' => Some v'
      | None => if String.eqb key k then Some v else None
      end
  end.

(** The [omitempty] option on an int, a string and a pointer field. *)
Definition omitempty_int (key : string) (n : Z) : list (string * value) :=
  if Z.eqb n 0 then [] else [(key, JNum n)].

Definition omitempty_string (key : string) (s : string)
  : list (string * value) :=
  if String.eqb s "" then [] else [(key, JStr s)].

Definition omitempty_ptr {A} (enc : A -> value) (key : string)
  (p : option A) : list (string * value) :=
  match p with
  | None => []
  | Some a => [(key, enc a)]
  end.

(** A slice: [null] when nil, else an array. *)
Definition enc_slice {A} (enc : A -> value) (s : slice A) : value :=
  match s with
  | None => JNull
  | Some xs => JArr (map enc xs)
  end.

Definition dec_int (v : value) : option Z :=
  match v with JNum n => Some n | _ => None end.

Definition dec_string (v : value) : option string :=
  match v with JStr s => Some s | _ => None end.

Definition dec_slice {A} (dec : value -> option A) (v : value)
  : option (slice A) :=
  match v with
  | JArr xs => Some <$> mapM dec xs
  | _ => None
  end.

(** A struct field: an absent member and a [null] member leave the zero
    value in place. *)
Definition field {A} (dec : value -> option A) (zero : A) (key : string)
  (fs : list (string * value)) : option A :=
  match obj_lookup key fs with
  | None => Some zero
  | Some JNull => Some zero
  | Some v => dec v
  end.

(** [Unmarshal] into a fresh struct: [null] is accepted and changes
    nothing. *)
Definition unmarshal {A} (dec : value -> option A) (zero : A) (v : value)
  : option A :=
  match v with
  | JNull => Some zero
  | _ => dec v
  end.

End json.

(** ** app/models *)

Module models.
Import json.

Section Models.
Context {X : Externals}.

Record Record_ : Type := mkRecord {
  TTL : Z;
  Priority : Z;
  Weight : Z;
  Port : Z;
  Tag : string;
  Content : slice string;
}.

Record Lookup : Type := mkLookup {
  Resolver : string;
  RTT : Z;
  Error : string;
  Records : slice Record_;
  ResolvedAt : Time;
}.

Record Query : Type := mkQuery {
  ID : UUID;
  Type_ : string;
  Name : string;
  Lookups : slice Lookup;
  CreatedAt : Time;
  FinishedAt : option Time;
}.

(** Field assignments through a pointer to a Query. *)
Definition set_ID (q : Query) (id : UUID) : Query :=
  mkQuery id (Type_ q) (Name q) (Lookups q) (CreatedAt q) (FinishedAt q).
Definition set_CreatedAt (q : Query) (t : Time) : Query :=
  mkQuery (ID q) (Type_ q) (Name q) (Lookups q) t (FinishedAt q).
Definition set_FinishedAt (q : Query) (t : option Time) : Query :=
  mkQuery (ID q) (Type_ q) (Name q) (Lookups q) (CreatedAt q) t.
Definition set_Lookups (q : Query) (ls : slice Lookup) : Query :=
  mkQuery (ID q) (Type_ q) (Name q) ls (CreatedAt q) (FinishedAt q).

(** The resource records of miekg/dns, with the header and data fields
    [RecordFromRR] reads; [OtherRR] stands for every other type. *)
Inductive RR : Type :=
| A (ttl : Z) (addr : netip_Addr)
| AAAA (ttl : Z) (addr : netip_Addr)
| CAA (ttl : Z) (flag : Z) (tag value : string)
| CNAME (ttl : Z) (target : string)
| DNSKEY (ttl : Z) (rdata : DNSKEY_rdata)
| MX (ttl : Z) (preference : Z) (mx : string)
| NS (ttl : Z) (ns : string)
| PTR (ttl : Z) (ptr : string)
| SOA (ttl : Z) (rdata : SOA_rdata)
| SRV (ttl : Z) (priority weight port : Z) (target : string)
| SVCB (ttl : Z) (priority : Z) (target : string)
| TXT (ttl : Z) (txt : slice string)
| OtherRR (rrtype : Z) (ttl : Z).

(** The type of a resource record, by the names of [validRecordType]. *)
Definition RR_type (rr : RR) : option string :=
  match rr with
  | A _ _ => Some "A"
  | AAAA _ _ => Some "AAAA"
  | CAA _ _ _ _ => Some "CAA"
  | CNAME _ _ => Some "CNAME"
  | DNSKEY _ _ => Some "DNSKEY"
  | MX _ _ _ => Some "MX"
  | NS _ _ => Some "NS"
  | PTR _ _ => Some "PTR"
  | SOA _ _ => Some "SOA"
  | SRV _ _ _ _ _ => Some "SRV"
  | SVCB _ _ _ => Some "SVCB"
  | TXT _ _ => Some "TXT"
  | OtherRR _ _ => None
  end.

(** A composite literal that names only some fields leaves the others at
    their zero value. *)
Definition zero_Record : Record_ := mkRecord 0 0 0 0 "" None.

Definition with_TTL (r : Record_) (v : Z) : Record_ :=
  mkRecord v (Priority r) (Weight r) (Port r) (Tag r) (Content r).
Definition with_Priority (r : Record_) (v : Z) : Record_ :=
  mkRecord (TTL r) v (Weight r) (Port r) (Tag r) (Content r).
Definition with_Weight (r : Record_) (v : Z) : Record_ :=
  mkRecord (TTL r) (Priority r) v (Port r) (Tag r) (Content r).
Definition with_Port (r : Record_) (v : Z) : Record_ :=
  mkRecord (TTL r) (Priority r) (Weight r) v (Tag r) (Content r).
Definition with_Tag (r : Record_) (v : string) : Record_ :=
  mkRecord (TTL r) (Priority r) (Weight r) (Port r) v (Content r).
Definition with_Content (r : Record_) (v : slice string) : Record_ :=
  mkRecord (TTL r) (Priority r) (Weight r) (Port r) (Tag r) v.

(** [RecordFromRR]; [None] is the nil result for an unsupported type. *)
Definition RecordFromRR (rr : RR) : option Record_ :=
  match rr with
  | A ttl addr =>
      Some (with_Content (with_TTL zero_Record ttl)
              (Some [Addr_String addr]))
  | AAAA ttl addr =>
      Some (with_Content (with_TTL zero_Record ttl)
              (Some [Addr_String addr]))
  | CAA ttl _ tag value =>
      Some (with_Content (with_Tag (with_TTL zero_Record ttl) tag)
              (Some [value]))
  | CNAME ttl target =>
      Some (with_Content (with_TTL zero_Record ttl) (Some [target]))
  | DNSKEY ttl rdata =>
      Some (with_Content (with_TTL zero_Record ttl)
              (Some [DNSKEY_String rdata]))
  | MX ttl preference mx =>
      Some (with_Content
              (with_Priority (with_TTL zero_Record ttl) preference)
              (Some [mx]))
  | NS ttl ns =>
      Some (with_Content (with_TTL zero_Record ttl) (Some [ns]))
  | PTR ttl ptr =>
      Some (with_Content (with_TTL zero_Record ttl) (Some [ptr]))
  | SOA ttl rdata =>
      Some (with_Content (with_TTL zero_Record ttl)
              (Some [SOA_String rdata]))
  | SRV ttl priority weight port target =>
      Some (with_Content
              (with_Port
                 (with_Weight
                    (with_Priority (with_TTL zero_Record ttl) priority)
                    weight)
                 port)
              (Some [target]))
  | SVCB ttl priority target =>
      Some (with_Content
              (with_Priority (with_TTL zero_Record ttl) priority)
              (Some [target]))
  | TXT ttl txt =>
      Some (with_Content (with_TTL zero_Record ttl) txt)
  | OtherRR _ _ => None
  end.

(** *** The JSON shape of the models, from their struct tags *)

Definition enc_time (t : Time) : value := JStr (time_Format t).
Definition dec_time (v : value) : option Time :=
  match v with JStr s => time_Parse s | _ => None end.

Definition enc_uuid (u : UUID) : value := JStr (uuid_String u).
Definition dec_uuid (v : value) : option UUID :=
  match v with JStr s => uuid_FromString s | _ => None end.

Definition Record_enc (r : Record_) : value :=
  JObj ([("ttl", JNum (TTL r))]
          ++ omitempty_int "priority" (Priority r)
          ++ omitempty_int "weight" (Weight r)
          ++ omitempty_int "port" (Port r)
          ++ omitempty_string "tag" (Tag r)
          ++ [("content", enc_slice JStr (Content r))]).

Definition Record_dec (v : value) : option Record_ :=
  match v with
  | JObj fs =>
      ttl ← field dec_int 0 "ttl" fs;
      priority ← field dec_int 0 "priority" fs;
      weight ← field dec_int 0 "weight" fs;
      port ← field dec_int 0 "port" fs;
      tag ← field dec_string "" "tag" fs;
      content ← field (dec_slice dec_string) None "content" fs;
      Some (mkRecord ttl priority weight port tag content)
  | _ => None
  end.

Definition Lookup_enc (l : Lookup) : value :=
  JObj ([("resolver", JStr (Resolver l)); ("rtt", JNum (RTT l))]
          ++ omitempty_string "error" (Error l)
          ++ [("records", enc_slice Record_enc (Records l));
              ("resolvedAt", enc_time (ResolvedAt l))]).

Definition Lookup_dec (v : value) : option Lookup :=
  match v with
  | JObj fs =>
      resolver ← field dec_string "" "resolver" fs;
      rtt ← field dec_int 0 "rtt" fs;
      err ← field dec_string "" "error" fs;
      records ← field (dec_slice Record_dec) None "records" fs;
      resolvedAt ← field dec_time time_zero "resolvedAt" fs;
      Some (mkLookup resolver rtt err records resolvedAt)
  | _ => None
  end.

Definition Query_enc (q : Query) : value :=
  JObj ([("id", enc_uuid (ID q));
         ("type", JStr (Type_ q));
         ("name", JStr (Name q));
         ("lookups", enc_slice Lookup_enc (Lookups q));
         ("createdAt", enc_time (CreatedAt q))]
          ++ omitempty_ptr enc_time "finishedAt" (FinishedAt q)).

Definition Query_dec (v : value) : option Query :=
  match v with
  | JObj fs =>
      id ← field dec_uuid uuid_Nil "id" fs;
      type ← field dec_string "" "type" fs;
      name ← field dec_string "" "name" fs;
      lookups ← field (dec_slice Lookup_dec) None "lookups" fs;
      createdAt ← field dec_time time_zero "createdAt" fs;
      finishedAt ←
        field (fun v => Some <$> dec_time v) None "finishedAt" fs;
      Some (mkQuery id type name lookups createdAt finishedAt)
  | _ => None
  end.

Definition zero_Query : Query :=
  mkQuery uuid_Nil "" "" None time_zero None.

End Models.
End models.

(** ** app/db: the storage interface

    A backend over a store of type [S]. [CreateQuery] receives the results
    of its calls to [uuid.NewV7] and [time.Now().UTC()] as arguments and
    returns the Query it was handed as it leaves it (the argument is a
    pointer, assigned through). *)

Module db.
Import models.

Record DB {X : Externals} (S : Type) : Type := {
  CreateQuery : UUID -> Time -> Query -> S -> S * Query * option error;
  GetQueryByID : UUID -> S -> result Query;
  UpdateQuery : Query -> S -> S * option error;
  CreateLookup : UUID -> Lookup -> S -> S * option error;
}.
Arguments CreateQuery {X S} _ _ _ _ _.
Arguments GetQueryByID {X S} _ _ _.
Arguments UpdateQuery {X S} _ _ _.
Arguments CreateLookup {X S} _ _ _ _.

End db.

(** ** app/db/file: all queries in one JSON document *)

Module file.
Import json models.

Section File.
Context {X : Externals}.

Record format : Type := mkFormat {
  Version : Z;
  Queries : slice Query;
}.

Definition format_enc (f : format) : value :=
  JObj [("version", JNum (Version f));
        ("queries", enc_slice Query_enc (Queries f))].

Definition format_dec (v : value) : option format :=
  match v with
  | JObj fs =>
      version ← field dec_int 0 "version" fs;
      queries ← field (dec_slice Query_dec) None "queries" fs;
      Some (mkFormat version queries)
  | _ => None
  end.

Definition zero_format : format := mkFormat 0 None.

(** The position of the first Query with the given ID. *)
Fixpoint index_of (id : UUID) (qs : list Query) : option nat :=
  match qs with
  | [] => None
  | q :: qs' =>
      if decide (ID q = id) then Some O else S <$> index_of id qs'
  end.

(** [format.getQuery]: the pointer it returns is a position in
    [Queries] together with the Query found there. *)
Definition getQuery (f : format) (id : UUID) : option (nat * Query) :=
  i ← index_of id (slice_elems (Queries f));
  q ← slice_elems (Queries f) !! i;
  Some (i, q).

(** Assignment through such a pointer. *)
Definition store (f : format) (i : nat) (q : Query) : format :=
  mkFormat (Version f) (Some (<[i := q]> (slice_elems (Queries f)))).

(** The file at [d.path]: absent, or holding a document. *)
Definition filesystem : Type := option value.

Definition readJSON (fs : filesystem) : result format :=
  match fs with
  | None => Err (Errorf "open: %w" (LibError "no such file or directory"))
  | Some v =>
      match unmarshal format_dec zero_format v with
      | None => Err (Errorf "json: %w" (LibError "cannot unmarshal"))
      | Some f => Ok f
      end
  end.

(** Creates or truncates the file and encodes into it; the file system is
    taken to accept the write. *)
Definition writeJSON (f : format) : filesystem * option error :=
  (Some (format_enc f), None).

(** [DB.read] and [DB.write]; the callback returns the format it
    leaves behind, or its error. The mutex makes each call atomic. *)
Definition read {A} (fn : format -> result A) (fs : filesystem)
  : result A :=
  match readJSON fs with
  | Err e => Err e
  | Ok f => fn f
  end.

Definition write (fn : format -> result format) (fs : filesystem)
  : filesystem * option error :=
  match readJSON fs with
  | Err e => (fs, Some e)
  | Ok f =>
      match fn f with
      | Err e => (fs, Some e)
      | Ok f' => writeJSON f'
      end
  end.

Definition wrap (msg : string) (r : filesystem * option error)
  : filesystem * option error :=
  match r with
  | (fs, Some e) => (fs, Some (Errorf msg e))
  | (fs, None) => (fs, None)
  end.

(** [DB.init]: if the file does not exist, write an empty one. *)
Definition init (fs : filesystem) : filesystem * option error :=
  match fs with
  | None =>
      match writeJSON (mkFormat 1 (Some [])) with
      | (fs', Some e) => (fs', Some (Errorf "init: %w" e))
      | (fs', None) => (fs', None)
      end
  | Some _ => (fs, None)
  end.

Definition New (fs : filesystem) : filesystem * option error := init fs.

Definition CreateQuery (id : UUID) (now : Time) (query : Query)
  (fs : filesystem) : filesystem * Query * option error :=
  let query := set_CreatedAt (set_ID query id) now in
  let '(fs', err) :=
    wrap "could not create query: %w"
      (write (fun f =>
                Ok (mkFormat (Version f)
                      (slice_append (Queries f) query))) fs) in
  (fs', query, err).

Definition GetQueryByID (id : UUID) (fs : filesystem) : result Query :=
  match read (fun f =>
                match getQuery f id with
                | None => Err ErrQueryNotFound
                | Some (_, q) => Ok q
                end) fs with
  | Err e => Err (Errorf "could not get query: %w" e)
  | Ok q => Ok q
  end.

Definition UpdateQuery (query : Query) (fs : filesystem)
  : filesystem * option error :=
  wrap "could not update query: %w"
    (write (fun f =>
              match getQuery f (ID query) with
              | None => Err ErrQueryNotFound
              | Some (i, q) =>
                  Ok (store f i (set_FinishedAt q (FinishedAt query)))
              end) fs).

Definition CreateLookup (queryID : UUID) (l : Lookup) (fs : filesystem)
  : filesystem * option error :=
  wrap "could not create lookup: %w"
    (write (fun f =>
              match getQuery f queryID with
              | None => Err ErrQueryNotFound
              | Some (i, q) =>
                  Ok (store f i
                        (set_Lookups q (slice_append (Lookups q) l)))
              end) fs).

Definition DB : db.DB filesystem := {|
  db.CreateQuery := CreateQuery;
  db.GetQueryByID := GetQueryByID;
  db.UpdateQuery := UpdateQuery;
  db.CreateLookup := CreateLookup;
|}.

End File.
End file.

(** ** app/db/redis: one RedisJSON document per Query *)

Module redis.
Import json models.

(** What a command of the go-redis client can fail with: the [redis.Nil]
    sentinel, or an error reply or transport error. *)
Inductive cmd_error : Type :=
| Nil
| Reply (msg : string).

Definition to_error (e : cmd_error) : error :=
  match e with
  | Nil => redis_Nil
  | Reply msg => LibError msg
  end.

(** The [conn] interface of [DB], over a server state [S]. Payloads are
    document trees: the text the client sends and receives is their
    serialisation. *)
Record conn (S : Type) : Type := {
  JSONArrAppend : string -> string -> value -> S -> S * option cmd_error;
  JSONGet : string -> string -> S -> value + cmd_error;
  JSONSet : string -> string -> value -> S -> S * option cmd_error;
}.
Arguments JSONArrAppend {S} _ _ _ _ _.
Arguments JSONGet {S} _ _ _ _.
Arguments JSONSet {S} _ _ _ _ _.

Section Redis.
Context {X : Externals} {S : Type} (c : conn S).

(** [queryKey] *)
Definition queryKey (id : UUID) : string :=
  "dennis:query:" +:+ uuid_String id.

Definition CreateQuery (id : UUID) (now : Time) (query : Query) (st : S)
  : S * Query * option error :=
  let query := set_CreatedAt (set_ID query id) now in
  match JSONSet c (queryKey (ID query)) "$" (Query_enc query) st with
  | (st', Some e) =>
      (st', query, Some (Errorf "could not set JSON key: %w" (to_error e)))
  | (st', None) => (st', query, None)
  end.

Definition GetQueryByID (id : UUID) (st : S) : result Query :=
  match JSONGet c (queryKey id) "." st with
  | inr e =>
      if errors_Is (to_error e) redis_Nil then Err ErrQueryNotFound
      else Err (Errorf "could not get JSON key: %w" (to_error e))
  | inl v =>
      match unmarshal Query_dec zero_Query v with
      | None => Err (Errorf "json: %w" (LibError "cannot unmarshal"))
      | Some query => Ok query
      end
  end.

Definition UpdateQuery (query : Query) (st : S) : S * option error :=
  match FinishedAt query with
  | Some t =>
      match JSONSet c (queryKey (ID query)) "$.finishedAt"
              (JStr (time_Format t)) st with
      | (st', Some e) =>
          (st', Some (Errorf "could not update JSON key: %w" (to_error e)))
      | (st', None) => (st', None)
      end
  | None => (st, None)
  end.

Definition CreateLookup (queryID : UUID) (lookup : Lookup) (st : S)
  : S * option error :=
  match JSONArrAppend c (queryKey queryID) "$.lookups"
          (Lookup_enc lookup) st with
  | (st', Some e) =>
      (st', Some (Errorf "could not set JSON key: %w" (to_error e)))
  | (st', None) => (st', None)
  end.

Definition DB : db.DB S := {|
  db.CreateQuery := CreateQuery;
  db.GetQueryByID := GetQueryByID;
  db.UpdateQuery := UpdateQuery;
  db.CreateLookup := CreateLookup;
|}.

End Redis.

(** *** A reference RedisJSON server

    The server is not part of the repository. This is the behaviour its
    command reference gives for the three commands on the paths the
    backend uses: the root ([$] and the legacy [.]) and one member below
    the root ([$.name]). *)

Inductive path : Type :=
| Root
| Member (name : string)
| Unsupported.

Definition parse_path (p : string) : path :=
  match p with
  | "$" => Root
  | "." => Root
  | String "$" (String "." name) => Member name
  | _ => Unsupported
  end.

(** Sets a member of an object: replaced where present, added last
    otherwise. *)
Fixpoint obj_replace (key : string) (v : value)
  (fs : list (string * value)) : list (string * value) :=
  match fs with
  | [] => []
  | (k, v') :: fs' =>
      (k, if String.eqb key k then v else v') :: obj_replace key v fs'
  end.

Definition obj_set (key : string) (v : value)
  (fs : list (string * value)) : list (string * value) :=
  match obj_lookup key fs with
  | Some _ => obj_replace key v fs
  | None => fs ++ [(key, v)]
  end.

Abbreviation server := (gmap string value).

(** JSON.SET: a new key must be created at the root; below the root the
    parent must be an object, otherwise nothing is set and the reply is
    nil. *)
Definition server_JSONSet (key p : string) (v : value) (st : server)
  : server * option cmd_error :=
  match parse_path p with
  | Root => (<[key := v]> st, None)
  | Member name =>
      match st !! key with
      | None =>
          (st, Some (Reply "ERR new objects must be created at the root"))
      | Some (JObj fs) => (<[key := JObj (obj_set name v fs)]> st, None)
      | Some _ => (st, Some Nil)
      end
  | Unsupported => (st, Some (Reply "ERR unsupported path"))
  end.

(** JSON.GET: a nil reply for a key that does not exist. *)
Definition server_JSONGet (key p : string) (st : server)
  : value + cmd_error :=
  match parse_path p with
  | Root =>
      match st !! key with
      | None => inr Nil
      | Some v => inl v
      end
  | Member name =>
      match st !! key with
      | None => inr Nil
      | Some (JObj fs) =>
          match obj_lookup name fs with
          | Some v => inl (JArr [v])
          | None => inl (JArr [])
          end
      | Some _ => inl (JArr [])
      end
  | Unsupported => inr (Reply "ERR unsupported path")
  end.

Definition missing_key : string :=
  "ERR could not perform this operation on a key that doesn't exist".

(** JSON.ARRAPPEND: an error for a key that does not exist; a nil entry
    in the reply, which the client cannot read as an integer, where the
    path holds something other than an array; an empty reply where the
    path matches nothing. *)
Definition server_JSONArrAppend (key p : string) (v : value) (st : server)
  : server * option cmd_error :=
  match st !! key with
  | None =>
      (st, Some (Reply missing_key))
  | Some doc =>
      match parse_path p, doc with
      | Root, JArr xs => (<[key := JArr (xs ++ [v])]> st, None)
      | Root, _ => (st, Some Nil)
      | Member name, JObj fs =>
          match obj_lookup name fs with
          | Some (JArr xs) =>
              (<[key := JObj (obj_set name (JArr (xs ++ [v])) fs)]> st, None)
          | Some _ => (st, Some Nil)
          | None => (st, None)
          end
      | Member _, _ => (st, None)
      | Unsupported, _ => (st, Some (Reply "ERR unsupported path"))
      end
  end.

Definition redisjson : conn server := {|
  JSONArrAppend := server_JSONArrAppend;
  JSONGet := server_JSONGet;
  JSONSet := server_JSONSet;
|}.

End redis.

(** ** app: the Server

    The Server is written against interfaces (the database, the DNS client,
    the clock, the logger), so its methods are programs over the calls they
    make: a program either returns or makes one call and continues with the
    answer. The WaitGroup that counts outstanding work for [Close] has no
    part in what the methods compute and is left out. *)

Module app.
Import json models.

Section Server.
Context {X : Externals}.

Record resolver : Type := mkResolver {
  name : string;
  addr : string;
}.

(** The fields of [dns.Msg] the Server reads. *)
Record Msg : Type := mkMsg {
  Rcode : Z;
  Answer : list RR;
}.

Definition RcodeSuccess : Z := 0.

Inductive event : Type -> Type :=
| DbCreateQuery (query : Query) : event (Query * option error)
| DbGetQueryByID (id : UUID) : event (result Query)
| DbUpdateQuery (query : Query) : event (option error)
| DbCreateLookup (queryID : UUID) (l : Lookup) : event (option error)
| ClientExchange (qname : string) (qtype : Z) (network address : string)
  : event (result (Msg * Z))
| TimeNow : event Time
| Log (level msg : string) : event unit.

Inductive prog (A : Type) : Type :=
| Ret (a : A)
| Vis {R : Type} (e : event R) (k : R -> prog A).
Arguments Ret {A} a.
Arguments Vis {A R} e k.

Fixpoint bind {A B} (m : prog A) (f : A -> prog B) : prog B :=
  match m with
  | Ret a => f a
  | Vis e k => Vis e (fun r => bind (k r) f)
  end.

Definition call {R} (e : event R) : prog R := Vis e Ret.

#[global] Instance prog_bind : MBind prog := fun A B f m => bind m f.

Definition with_Error (l : Lookup) (e : string) : Lookup :=
  mkLookup (Resolver l) (RTT l) e (Records l) (ResolvedAt l).
Definition with_Records (l : Lookup) (rs : slice Record_) : Lookup :=
  mkLookup (Resolver l) (RTT l) (Error l) rs (ResolvedAt l).

(** The loop over [res.Answer]. *)
Definition collect (answers : list RR) (records : slice Record_)
  : slice Record_ :=
  fold_left
    (fun records answer =>
       match RecordFromRR answer with
       | Some rr => slice_append records rr
       | None => records
       end)
    answers records.

Definition Millisecond : Z := 1000000.

(** [Server.resolve]. The deferred debug line runs on every return. *)
Definition resolve (rsv : resolver) (query : Query) : prog unit :=
  call (Log "DEBUG" "starting resolution...");;
  r ← call (ClientExchange (Name query)
               (default 0 (StringToType (Type_ query)))
               "udp" (addr rsv));
  match r with
  | Err err =>
      call (Log "ERROR" "could not resolve query");;
      call (Log "DEBUG" "resolution complete")
  | Ok (res, rtt) =>
      let err : option error := None in
      now ← call TimeNow;
      let l := mkLookup (name rsv) (Z.quot rtt Millisecond) "" None now in
      let l :=
        if negb (Rcode res =? RcodeSuccess) then
          with_Error l (default "" (RcodeToString (Rcode res)))
        else if errors_Is_opt err context_Canceled then
          with_Error l "CANCELED"
        else
          with_Records l (collect (Answer res) (Records l)) in
      err ← call (DbCreateLookup (ID query) l);
      match err with
      | Some _ =>
          call (Log "ERROR" "could not create lookup");;
          call (Log "DEBUG" "resolution complete")
      | None => call (Log "DEBUG" "resolution complete")
      end
  end.

(** [Server.resolveAll]. The resolution tasks run concurrently and
    are joined before the finalize step; they share nothing but the
    database, whose operations are atomic, so the program below runs
    them one after the other, in the order of the configuration. *)
Fixpoint resolveEach (rsvs : list resolver) (query : Query) : prog unit :=
  match rsvs with
  | [] => Ret tt
  | rsv :: rsvs' => resolve rsv query;; resolveEach rsvs' query
  end.

Definition resolveAll (rsvs : list resolver) (query : Query)
  : prog unit :=
  resolveEach rsvs query;;
  now ← call TimeNow;
  let query := set_FinishedAt query (Some now) in
  err ← call (DbUpdateQuery query);
  match err with
  | Some _ => call (Log "ERROR" "could not update query")
  | None => Ret tt
  end.

(** [Server.CreateQuery]. The second component of the result is the
    work started with [go]: it runs after the call has returned. *)
Definition CreateQuery (rsvs : list resolver)
  (req : option apiv1.CreateQueryRequest)
  : prog (result Query * list (prog unit)) :=
  match apiv1.CreateQueryRequest_Validate req, req with
  | Some err, _ => Ret (Err (ApiError err), [])
  | None, None =>
      (* not reached: Validate rejects the nil request *)
      Ret (Err (ApiError (apiv1.BadRequest "." "Request body is required")),
           [])
  | None, Some req =>
      let query :=
        mkQuery uuid_Nil (apiv1.Type_ req) (apiv1.Name req) (Some [])
          time_zero None in
      r ← call (DbCreateQuery query);
      match r with
      | (_, Some err) => Ret (Err err, [])
      | (query, None) => Ret (Ok query, [resolveAll rsvs query])
      end
  end.

(** [Server.GetQuery] *)
Definition GetQuery (req : option apiv1.GetQueryRequest)
  : prog (result Query) :=
  match apiv1.GetQueryRequest_Validate req, req with
  | Some err, _ => Ret (Err (ApiError err))
  | None, None =>
      (* not reached: Validate rejects the nil request *)
      Ret (Err (ApiError (apiv1.BadRequest "." "Request body is required")))
  | None, Some req =>
      match uuid_FromString (apiv1.ID req) with
      | None =>
          Ret (Err (ApiError
                      (apiv1.BadRequest ".id" "Invalid UUID for Query ID")))
      | Some id =>
          r ← call (DbGetQueryByID id);
          match r with
          | Err err =>
              if errors_Is err ErrQueryNotFound then
                Ret (Err (ApiError
                            (apiv1.mkError apiv1.ErrorCodeNotFound ""
                               "Query not found by ID")))
              else Ret (Err err)
          | Ok query => Ret (Ok query)
          end
      end
  end.

(** [NewServer]: one resolver of the Server per configured resolver, on
    port 53 unless a positive port is configured. [None] is the panic of
    reading through a nil element. *)
Fixpoint NewServer (rsv : list (option config.Resolver))
  : option (list resolver) :=
  match rsv with
  | [] => Some []
  | None :: _ => None
  | Some r :: rsv' =>
      let port :=
        if 0 <? config.Resolver_Port r then Itoa (config.Resolver_Port r)
        else "53" in
      rs ← NewServer rsv';
      Some (mkResolver (config.Resolver_Name r)
              (JoinHostPort (config.Resolver_Addr r) port) :: rs)
  end.

(** *** Running a program

    The environment answers the calls that leave the process: the
    successive results of [uuid.NewV7] and of [time.Now().UTC()], and
    the DNS client. The world is the store of the database, the number
    of values drawn so far, and the log. *)

Record env : Type := mkEnv {
  uuid_at : nat -> UUID;
  time_at : nat -> Time;
  exchange : string -> Z -> string -> string -> result (Msg * Z);
}.

Record world (S : Type) : Type := mkWorld {
  w_store : S;
  w_tick : nat;
  w_log : list (string * string);
}.
Arguments mkWorld {S} _ _ _.
Arguments w_store {S} _.
Arguments w_tick {S} _.
Arguments w_log {S} _.

Section Run.
Context {S : Type} (D : db.DB S) (E : env).

Definition handle {R} (e : event R) (w : world S) : R * world S :=
  match e in event R return R * world S with
  | DbCreateQuery query =>
      let '(st, query', err) :=
        db.CreateQuery D (uuid_at E (w_tick w))
          (time_at E (Datatypes.S (w_tick w))) query (w_store w) in
      ((query', err), mkWorld st (2 + w_tick w)%nat (w_log w))
  | DbGetQueryByID id =>
      (db.GetQueryByID D id (w_store w), w)
  | DbUpdateQuery query =>
      let '(st, err) := db.UpdateQuery D query (w_store w) in
      (err, mkWorld st (w_tick w) (w_log w))
  | DbCreateLookup queryID l =>
      let '(st, err) := db.CreateLookup D queryID l (w_store w) in
      (err, mkWorld st (w_tick w) (w_log w))
  | ClientExchange qname qtype network address =>
      (exchange E qname qtype network address, w)
  | TimeNow =>
      (time_at E (w_tick w),
       mkWorld (w_store w) (Datatypes.S (w_tick w)) (w_log w))
  | Log level msg =>
      (tt, mkWorld (w_store w) (w_tick w) (w_log w ++ [(level, msg)]))
  end.

Fixpoint run {A} (p : prog A) (w : world S) : A * world S :=
  match p with
  | Ret a => (a, w)
  | Vis e k => let '(r, w') := handle e w in run (k r) w'
  end.
End Run.

(** The calls to the database a program makes in a run, in order. *)
Inductive db_call : Type :=
| CallCreateQuery (query : Query)
| CallGetQueryByID (id : UUID)
| CallUpdateQuery (query : Query)
| CallCreateLookup (queryID : UUID) (l : Lookup).

Definition db_call_of {R} (e : event R) : list db_call :=
  match e with
  | DbCreateQuery query => [CallCreateQuery query]
  | DbGetQueryByID id => [CallGetQueryByID id]
  | DbUpdateQuery query => [CallUpdateQuery query]
  | DbCreateLookup queryID l => [CallCreateLookup queryID l]
  | _ => []
  end.

Fixpoint calls {S A} (D : db.DB S) (E : env) (p : prog A) (w : world S)
  : list db_call :=
  match p with
  | Ret _ => []
  | Vis e k =>
      let '(r, w') := handle D E e w in db_call_of e ++ calls D E (k r) w'
  end.

End Server.

Arguments Ret {X A} a.
Arguments Vis {X A R} e k.
Arguments mkWorld {S} _ _ _.
Arguments w_store {S} _.
Arguments w_tick {S} _.
Arguments w_log {S} _.
End app.

(** ** main: the choice of the backend *)

Module main.

Section GetDB.
(** The database values, and the two constructors [file.FromConfig] and
    [redis.FromConfig], which open the file and ping the server. *)
Context {C : Type}.
Variable file_FromConfig : config.FileDB -> result C.
Variable redis_FromConfig : config.RedisDB -> result C.

(** [getDB] *)
Definition getDB (cfg : config.DB) : result C :=
  match config.File cfg, config.Redis cfg with
  | Some f, _ =>
      match file_FromConfig f with
      | Err err => Err (Errorf "file: %w" err)
      | Ok conn => Ok conn
      end
  | None, Some r =>
      match redis_FromConfig r with
      | Err err => Err (Errorf "redis: %w" err)
      | Ok conn => Ok conn
      end
  | None, None => Err (LibError "no database configured")
  end.
End GetDB.

End main.

(** ** app: the user interface

    The handlers of [UI] return a template or an error; [Router.handle]
    of package web hands an error to the error handler and renders the
    template that results. The components of package templates are names
    here; the redirect is the one of package web. *)

Module ui.

Section UI.
Context {X : Externals}.

Definition StatusSeeOther : Z := 303.

Inductive Template : Type :=
| Index (err : option apiv1.Error)
| GetQueryPage (query : models.Query)
| NotFoundPage
| ErrorPage
| Redirect (location : string) (status : Z).

(** [UI.Query]; the error of the logic layer is shown on the form only
    when it is an [*apiv1.Error] itself. *)
Definition Query (rsvs : list app.resolver) (type name : string)
  : app.prog (result Template * list (app.prog unit)) :=
  r ← app.CreateQuery rsvs
        (Some {| apiv1.Type_ := type; apiv1.Name := name |});
  match r with
  | (Err (ApiError err), tasks) => app.Ret (Ok (Index (Some err)), tasks)
  | (Err err, tasks) => app.Ret (Err err, tasks)
  | (Ok query, tasks) =>
      app.Ret (Ok (Redirect ("/query/" +:+ uuid_String (models.ID query))
                     StatusSeeOther), tasks)
  end.

(** [UI.GetQuery], on the value of the URL parameter. *)
Definition GetQuery (id : string) : app.prog (result Template) :=
  r ← app.GetQuery (Some {| apiv1.ID := id |});
  match r with
  | Err err => app.Ret (Err err)
  | Ok query => app.Ret (Ok (GetQueryPage query))
  end.

(** [UI.NotFound] *)
Definition NotFound : app.prog (result Template) := app.Ret (Ok NotFoundPage).

(** [UI.ErrorHandler] *)
Definition ErrorHandler (err : error) : app.prog Template :=
  app.call (app.Log "ERROR" "an unexpected error occurred");;
  app.Ret ErrorPage.

(** [Router.handle], up to the template that is rendered. *)
Definition handle (hn : app.prog (result Template)) : app.prog Template :=
  r ← hn;
  match r with
  | Err err => ErrorHandler err
  | Ok tpl => app.Ret tpl
  end.

End UI.
End ui.

(** ** A concrete environment

    Instants and identifiers are natural numbers written in decimal. It
    makes the definitions above run on concrete inputs and shows that the
    contract of the text forms can be met. *)

Module Sample.

Definition print (n : N) : string :=
  NilEmpty.string_of_uint (N.to_uint n).

Definition parse (s : string) : option N :=
  match NilEmpty.uint_of_string s with
  | Some d => Some (N.of_uint d)
  | None => None
  end.

Definition rcodes (rcode : Z) : option string :=
  match rcode with
  | 0 => Some "NOERROR"
  | 1 => Some "FORMERR"
  | 2 => Some "SERVFAIL"
  | 3 => Some "NXDOMAIN"
  | 4 => Some "NOTIMP"
  | 5 => Some "REFUSED"
  | _ => None
  end.

Definition types (t : string) : option Z :=
  if String.eqb t "A" then Some 1
  else if String.eqb t "NS" then Some 2
  else if String.eqb t "CNAME" then Some 5
  else if String.eqb t "MX" then Some 15
  else if String.eqb t "TXT" then Some 16
  else if String.eqb t "AAAA" then Some 28
  else None.

Definition externals : Externals := {|
  Time := N;
  time_zero := 0%N;
  time_Format := print;
  time_Parse := parse;
  UUID := N;
  uuid_Nil := 0%N;
  uuid_String := print;
  uuid_FromString := parse;
  netip_Addr := string;
  Addr_String := fun a => a;
  DNSKEY_rdata := string;
  DNSKEY_String := fun d => d;
  SOA_rdata := string;
  SOA_String := fun d => d;
  RcodeToString := rcodes;
  StringToType := types;
|}.

(** A finished Query with one Lookup, and a file and a server holding it. *)
Definition record : models.Record_ :=
  models.mkRecord 300 0 0 0 "" (Some ["93.184.216.34"]).

Definition lookup : models.Lookup :=
  models.mkLookup (X := externals) "A" 12 "" (Some [record]) 1500%N.

Definition query : models.Query :=
  models.mkQuery (X := externals) 7%N "A" "example.com" (Some [lookup])
    1000%N (Some 2000%N).

Definition disk : file.filesystem :=
  Some (file.format_enc (file.mkFormat 1 (Some [query]))).

Definition keys : gmap string json.value :=
  {[ redis.queryKey (X := externals) 7%N := models.Query_enc query ]}.

Definition environment : app.env :=
  app.mkEnv (X := externals)
    (fun n => N.of_nat (100 + n)) (fun n => N.of_nat (5000 + n))
    (fun _ _ _ _ => Err (LibError "i/o timeout")).

(** Two resolvers: the first answers an A question with one record after
    12 ms, the second does not answer. *)
Definition resolvers : list app.resolver :=
  [app.mkResolver "A" "192.0.2.1:53"; app.mkResolver "B" "192.0.2.2:53"].

Definition network : app.env :=
  app.mkEnv (X := externals)
    (fun n => N.of_nat (100 + n)) (fun n => N.of_nat (5000 + n))
    (fun qname qtype net address =>
       if String.eqb address "192.0.2.1:53" then
         Ok (app.mkMsg 0 [models.A (X := externals) 300 "93.184.216.34"],
            12000000)
       else Err (LibError "i/o timeout")).

(** A configuration in the manner of the README, with a relative path, and
    the same with a nil second resolver. *)
Definition config : config.Config :=
  config.mkConfig 1 {| config.Debug := false; config.JSON := true |}
    (Some {| config.Listener_Addr := "localhost:8080" |})
    [Some {| config.Resolver_Name := "CloudFlare";
             config.Resolver_Addr := "1.1.1.1";
             config.Resolver_Port := 0 |};
     Some {| config.Resolver_Name := "Google DNS";
             config.Resolver_Addr := "8.8.4.4";
             config.Resolver_Port := 5353 |}]
    {| config.File := Some {| config.Path := "dennis.json" |};
       config.Redis := None |}.

Definition broken_config : config.Config :=
  config.mkConfig 1 (config.Config_Logging config) (config.Listen config)
    [Some {| config.Resolver_Name := "CloudFlare";
             config.Resolver_Addr := "1.1.1.1";
             config.Resolver_Port := 0 |};
     None]
    (config.Config_DB config).

(** Every resolver answers NXDOMAIN after 4 ms. *)
Definition refusing : app.env :=
  app.mkEnv (X := externals)
    (fun n => N.of_nat (100 + n)) (fun n => N.of_nat (5000 + n))
    (fun qname qtype net address =>
       Ok (app.mkMsg (X := externals) 3 [], 4000000)).

End Sample.

(** ** Vocabulary of the properties *)

(** The requests that pass: a supported type, a name of 4 to 253 bytes that
    is a word of the hostname pattern. *)
Definition well_formed (c : apiv1.CreateQueryRequest) : Prop :=
  In (apiv1.Type_ c) apiv1.supported_types
  /\ (4 <= String.length (apiv1.Name c) <= 253)%nat
  /\ Regexp.lang apiv1.hostname (apiv1.Name c).

(** Every operation keeps the Query found under an ID in place; what it
    may change there is given by [g]. *)
Definition keeps {X : Externals}
  (g : models.Query -> models.Query -> Prop) (fs fs' : file.filesystem)
  : Prop :=
  forall id q, file.GetQueryByID id fs = Ok q ->
               exists q', file.GetQueryByID id fs' = Ok q' /\ g q q'.

(** The Query an UpdateQuery leaves behind under the Redis backend. *)
Definition redis_updated {X : Externals} (query q : models.Query)
  : models.Query :=
  if decide (models.ID query = models.ID q) then
    match models.FinishedAt query with
    | Some t => models.set_FinishedAt q (Some t)
    | None => q
    end
  else q.

(** The Query a CreateLookup leaves behind under the Redis backend. *)
Definition redis_appended {X : Externals} (id : UUID) (l : models.Lookup)
  (q : models.Query) : models.Query :=
  if decide (id = models.ID q) then
    match models.Lookups q with
    | Some _ => models.set_Lookups q (slice_append (models.Lookups q) l)
    | None => q
    end
  else q.

(** Two Queries that agree on every field but FinishedAt. *)
Definition same_but_FinishedAt {X : Externals} (q q' : models.Query) : Prop :=
  models.ID q' = models.ID q
  /\ models.Type_ q' = models.Type_ q
  /\ models.Name q' = models.Name q
  /\ models.Lookups q' = models.Lookups q
  /\ models.CreatedAt q' = models.CreatedAt q.

(** Both backends hand the Query back with the generated ID and the
    creation time assigned over whatever the caller had put there. *)
Definition assigns_ID {X : Externals} {S : Type} (D : db.DB S) : Prop :=
  forall id now query st,
    snd (fst (db.CreateQuery D id now query st))
    = models.set_CreatedAt (models.set_ID query id) now.

(** The outcome of a successful Server.CreateQuery over a backend. *)
Definition returns_fresh_Query {X : Externals} {S : Type} (D : db.DB S)
  (E : app.env) : Prop :=
  forall rsvs req w q tasks w',
    app.run D E (app.CreateQuery rsvs req) w = ((Ok q, tasks), w') ->
    models.ID q = app.uuid_at E (app.w_tick w)
    /\ models.ID q <> uuid_Nil
    /\ models.Lookups q = Some []
    /\ slice_len (models.Lookups q) = 0%nat
    /\ (forall rsvs2 req2 w2 q2 tasks2 w2',
          (app.w_tick w' <= app.w_tick w2)%nat ->
          app.run D E (app.CreateQuery rsvs2 req2) w2
          = ((Ok q2, tasks2), w2') ->
          models.ID q2 <> models.ID q).

(** The Lookup a task builds from an answer with a non-success code. *)
Definition failed_Lookup {X : Externals} (rsv : app.resolver) (res : app.Msg)
  (rtt : Z) (now : Time) : models.Lookup :=
  models.mkLookup (app.name rsv) (Z.quot rtt app.Millisecond)
    (default "" (RcodeToString (app.Rcode res))) None now.

(** The population of a Record by type, with SVCB among the types that
    carry only TTL and Content. *)
Definition populates_by_type (X : Externals) : Prop :=
  forall (rr : models.RR) (r : models.Record_),
    models.RecordFromRR rr = Some r ->
    exists t,
      models.RR_type rr = Some t
      /\ (models.Priority r <> 0 -> In t ["MX"; "SRV"])
      /\ (models.Weight r <> 0 \/ models.Port r <> 0 -> t = "SRV")
      /\ (models.Tag r <> "" -> t = "CAA")
      /\ (In t ["A"; "AAAA"; "CNAME"; "DNSKEY"; "NS"; "PTR"; "SOA"; "SVCB";
                "TXT"] ->
          r = models.mkRecord (models.TTL r) 0 0 0 "" (models.Content r)).

(** A backend under which no storage operation clears or changes a
    FinishedAt that is set. *)
Definition FinishedAt_is_final {X : Externals} {S : Type} (D : db.DB S)
  : Prop :=
  forall st id q t,
    db.GetQueryByID D id st = Ok q ->
    models.FinishedAt q = Some t ->
    (forall id' l,
        exists q',
          db.GetQueryByID D id (fst (db.CreateLookup D id' l st)) = Ok q'
          /\ models.FinishedAt q' = Some t)
    /\ (forall query,
          exists q',
            db.GetQueryByID D id (fst (db.UpdateQuery D query st)) = Ok q'
            /\ models.FinishedAt q' = Some t)
    /\ (forall id' now query,
          id' <> id ->
          exists q',
            db.GetQueryByID D id
              (fst (fst (db.CreateQuery D id' now query st))) = Ok q'
            /\ models.FinishedAt q' = Some t).

(** The names of the hostname pattern, spelled out. *)
Definition hostname_shape (n : string) : Prop :=
  exists host pre tld,
    n = host +:+ "." +:+ pre +:+ tld
    /\ host <> ""
    /\ all_bytes apiv1.label_char host = true
    /\ (pre = "" \/ pre = "xn--")
    /\ (1 <= String.length tld <= 18)%nat
    /\ all_bytes apiv1.alnum tld = true.

(** The configurations [Config.Validate] lets through, part by part. *)
Definition valid_listener (l : option config.Listener) : Prop :=
  exists l', l = Some l' /\ config.Listener_Addr l' <> "".

Definition valid_resolver (r : option config.Resolver) : Prop :=
  exists r',
    r = Some r'
    /\ config.Resolver_Name r' <> ""
    /\ config.Resolver_Addr r' <> "".

Definition valid_db (IsAbs : string -> bool) (d : config.DB) : Prop :=
  (exists f,
      config.File d = Some f /\ config.Redis d = None
      /\ config.Path f <> "" /\ IsAbs (config.Path f) = false)
  \/ (exists r,
        config.File d = None /\ config.Redis d = Some r
        /\ config.Addr r <> "" /\ 0 <= config.DB_index r).

(** The address [NewServer] gives the resolver of a configuration. *)
Definition resolver_of (r : config.Resolver) : app.resolver :=
  app.mkResolver (config.Resolver_Name r)
    (JoinHostPort (config.Resolver_Addr r)
       (if 0 <? config.Resolver_Port r then Itoa (config.Resolver_Port r)
        else "53")).

(** The TTL in the header of a resource record. *)
Definition RR_ttl {X : Externals} (rr : models.RR) : Z :=
  match rr with
  | models.A ttl _ | models.AAAA ttl _ | models.CAA ttl _ _ _
  | models.CNAME ttl _ | models.DNSKEY ttl _ | models.MX ttl _ _
  | models.NS ttl _ | models.PTR ttl _ | models.SOA ttl _
  | models.SRV ttl _ _ _ _ | models.SVCB ttl _ _ | models.TXT ttl _
  | models.OtherRR _ ttl => ttl
  end.

(** The Records of an answer section: the supported records in order, the
    nil slice when there is none. *)
Definition records_of {X : Externals} (answers : list models.RR)
  : slice models.Record_ :=
  match omap models.RecordFromRR answers with
  | [] => None
  | rs => Some rs
  end.

(** The Lookup a task builds from an answer, whatever its response code. *)
Definition lookup_of {X : Externals} (rsv : app.resolver) (res : app.Msg)
  (rtt : Z) (now : Time) : models.Lookup :=
  if app.Rcode res =? app.RcodeSuccess then
    models.mkLookup (app.name rsv) (Z.quot rtt app.Millisecond) ""
      (records_of (app.Answer res)) now
  else failed_Lookup rsv res rtt now.

(** What the DNS client answers a resolver for a Query. *)
Definition answer_of {X : Externals} (E : app.env) (query : models.Query)
  (rsv : app.resolver) : result (app.Msg * Z) :=
  app.exchange E (models.Name query)
    (default 0 (StringToType (models.Type_ query))) "udp" (app.addr rsv).

Definition answered {X : Externals} (E : app.env) (query : models.Query)
  (rsv : app.resolver) : bool :=
  match answer_of E query rsv with
  | Ok _ => true
  | Err _ => false
  end.

(** The Lookups the tasks of a fan-out build, in the order of the
    resolvers, the clock being at [tick] when the first one starts: one for
    each resolver the DNS client gets an answer from. *)
Fixpoint lookups_from {X : Externals} (E : app.env) (query : models.Query)
  (tick : nat) (rsvs : list app.resolver) : list models.Lookup :=
  match rsvs with
  | [] => []
  | rsv :: rsvs' =>
      match answer_of E query rsv with
      | Ok (res, rtt) =>
          lookup_of rsv res rtt (app.time_at E tick)
          :: lookups_from E query (Datatypes.S tick) rsvs'
      | Err _ => lookups_from E query tick rsvs'
      end
  end.

(** A Query after the Lookups [ls] have been appended to it. *)
Definition appended {X : Externals} (q : models.Query)
  (ls : list models.Lookup) : models.Query :=
  match ls with
  | [] => q
  | _ => models.set_Lookups q (Some (slice_elems (models.Lookups q) ++ ls))
  end.

(** A store after CreateLookup has been called for each of [ls] in turn. *)
Definition create_lookups {X : Externals} {S : Type} (D : db.DB S)
  (id : UUID) (ls : list models.Lookup) (st : S) : S :=
  fold_left (fun st l => fst (db.CreateLookup D id l st)) ls st.


(** * Properties *)

(** ** The concrete environment meets the contract of the text forms *)

Lemma Sample_parse_print (n : N) : Sample.parse (Sample.print n) = Some n.
Proof.
  unfold Sample.parse, Sample.print.
  rewrite NilEmpty.usu.
  f_equal. apply DecimalN.Unsigned.of_to.
Qed.

Lemma Sample_laws : ExternalsLaws Sample.externals.
Proof. split; intros; apply Sample_parse_print. Qed.

(** ** The matcher decides membership in the language of the pattern *)

Section Matcher.
Import Regexp.

Lemma lang_Empty (s : string) : ~ lang Empty s.
Proof. intros H. inversion H. Qed.

Lemma lang_Eps (s : string) : lang Eps s -> s = "".
Proof. intros H. inversion H. reflexivity. Qed.

Lemma append_nil_l (s : string) : "" +:+ s = s.
Proof. reflexivity. Qed.

Lemma append_cons (c : ascii) (s t : string) :
  String c s +:+ t = String c (s +:+ t).
Proof. reflexivity. Qed.

Lemma append_empty (s1 s2 : string) :
  s1 +:+ s2 = "" -> s1 = "" /\ s2 = "".
Proof.
  destruct s1; [rewrite append_nil_l; tauto|rewrite append_cons; discriminate].
Qed.

Lemma append_empty_r (s : string) : s +:+ "" = s.
Proof.
  induction s as [|c s IH]; [reflexivity|].
  rewrite append_cons, IH. reflexivity.
Qed.

Lemma lang_nullable (r : regex) (s : string) :
  lang r s -> s = "" -> nullable r = true.
Proof.
  induction 1 as [|p c Hp|r1 r2 s1 s2 H1 IH1 H2 IH2|r1 r2 s0 H0 IH0
                 |r1 r2 s0 H0 IH0|r0|r0 s1 s2 H1 IH1 H2 IH2];
    intros Hs; simpl; try reflexivity.
  - discriminate.
  - apply append_empty in Hs. destruct Hs as [Hs1 Hs2].
    rewrite (IH1 Hs1), (IH2 Hs2). reflexivity.
  - rewrite (IH0 Hs). reflexivity.
  - rewrite (IH0 Hs). apply orb_true_r.
Qed.

Lemma nullable_lang (r : regex) : nullable r = true <-> lang r "".
Proof.
  split; [|intros H; apply (lang_nullable r "" H eq_refl)].
  induction r as [| |p|r1 IH1 r2 IH2|r1 IH1 r2 IH2|r0 IH0]; simpl; intros H;
    try discriminate.
  - constructor.
  - apply andb_true_iff in H. destruct H as [Hn1 Hn2].
    apply (LSeq r1 r2 "" ""); auto.
  - apply orb_true_iff in H. destruct H as [Hn|Hn].
    + apply LAltL; auto.
    + apply LAltR; auto.
  - constructor.
Qed.

Lemma Seq_Empty_l (r : regex) (s : string) :
  lang (Seq Empty r) s <-> lang Empty s.
Proof.
  split; intros H; [|inversion H].
  inversion H as [| |r1 r2 s1 s2 H1 H2| | | |]; subst. inversion H1.
Qed.

Lemma Seq_Empty_r (r : regex) (s : string) :
  lang (Seq r Empty) s <-> lang Empty s.
Proof.
  split; intros H; [|inversion H].
  inversion H as [| |r1 r2 s1 s2 H1 H2| | | |]; subst. inversion H2.
Qed.

Lemma Seq_Eps_l (r : regex) (s : string) : lang (Seq Eps r) s <-> lang r s.
Proof.
  split; intros H.
  - inversion H as [| |r1 r2 s1 s2 H1 H2| | | |]; subst.
    apply lang_Eps in H1. subst s1. exact H2.
  - apply (LSeq Eps r "" s); [constructor|exact H].
Qed.

Lemma Seq_Eps_r (r : regex) (s : string) : lang (Seq r Eps) s <-> lang r s.
Proof.
  split; intros H.
  - inversion H as [| |r1 r2 s1 s2 H1 H2| | | |]; subst.
    apply lang_Eps in H2. subst s2. rewrite append_empty_r. exact H1.
  - rewrite <- (append_empty_r s). apply LSeq; [exact H|constructor].
Qed.

Lemma Alt_Empty_l (r : regex) (s : string) : lang (Alt Empty r) s <-> lang r s.
Proof.
  split; intros H; [|apply LAltR; exact H].
  inversion H as [| | |r1 r2 s' H1|r1 r2 s' H2| |]; subst;
    [inversion H1|exact H2].
Qed.

Lemma Alt_Empty_r (r : regex) (s : string) : lang (Alt r Empty) s <-> lang r s.
Proof.
  split; intros H; [|apply LAltL; exact H].
  inversion H as [| | |r1 r2 s' H1|r1 r2 s' H2| |]; subst;
    [exact H1|inversion H2].
Qed.

Lemma seq_lang (r1 r2 : regex) (s : string) :
  lang (seq r1 r2) s <-> lang (Seq r1 r2) s.
Proof.
  destruct r1, r2; simpl;
    rewrite ?Seq_Empty_l, ?Seq_Empty_r, ?Seq_Eps_l, ?Seq_Eps_r;
    reflexivity.
Qed.

Lemma alt_lang (r1 r2 : regex) (s : string) :
  lang (alt r1 r2) s <-> lang (Alt r1 r2) s.
Proof.
  destruct r1, r2; simpl; rewrite ?Alt_Empty_l, ?Alt_Empty_r; reflexivity.
Qed.

(** From a word of the language that starts with [c] to the derivative. *)
Lemma lang_deriv (r : regex) (w : string) :
  lang r w -> forall c s, w = String c s -> lang (deriv c r) s.
Proof.
  induction 1 as [|p c0 Hp|r1 r2 s1 s2 H1 IH1 H2 IH2|r1 r2 s0 H0 IH0
                 |r1 r2 s0 H0 IH0|r0|r0 s1 s2 H1 IH1 H2 IH2];
    intros c s Hw; simpl.
  - discriminate.
  - injection Hw as <- <-. rewrite Hp. constructor.
  - destruct s1 as [|c1 s1'].
    + rewrite append_nil_l in Hw. subst s2.
      rewrite (lang_nullable r1 "" H1 eq_refl).
      apply alt_lang, LAltR. apply IH2. reflexivity.
    + rewrite append_cons in Hw. injection Hw as -> <-.
      assert (Hd : lang (seq (deriv c r1) r2) (s1' +:+ s2)).
      { apply seq_lang, LSeq; [apply IH1; reflexivity|exact H2]. }
      destruct (nullable r1); [apply alt_lang, LAltL|]; exact Hd.
  - apply alt_lang, LAltL, IH0, Hw.
  - apply alt_lang, LAltR, IH0, Hw.
  - discriminate.
  - destruct s1 as [|c1 s1'].
    + rewrite append_nil_l in Hw. apply IH2 in Hw. exact Hw.
    + rewrite append_cons in Hw. injection Hw as -> <-.
      apply seq_lang, LSeq; [apply IH1; reflexivity|exact H2].
Qed.

Lemma deriv_lang (r : regex) (c : ascii) (s : string) :
  lang (deriv c r) s <-> lang r (String c s).
Proof.
  split; [|intros H; apply (lang_deriv r _ H c s eq_refl)].
  revert s.
  induction r as [| |p|r1 IH1 r2 IH2|r1 IH1 r2 IH2|r0 IH0]; simpl; intros s H.
  - exfalso. apply (lang_Empty s), H.
  - exfalso. apply (lang_Empty s), H.
  - destruct (p c) eqn:Hp; [|exfalso; apply (lang_Empty s), H].
    apply lang_Eps in H. subst s. constructor. exact Hp.
  - assert (Hseq : lang (seq (deriv c r1) r2) s ->
                   lang (Seq r1 r2) (String c s)).
    { intros Hs. apply seq_lang in Hs.
      inversion Hs as [| |r1' r2' s1 s2 Hs1 Hs2| | | |]; subst.
      apply (LSeq r1 r2 (String c s1) s2); [apply IH1; exact Hs1|exact Hs2]. }
    destruct (nullable r1) eqn:Hn; [|apply Hseq, H].
    apply alt_lang in H.
    inversion H as [| | |r1' r2' s' Hl|r1' r2' s' Hr| |]; subst.
    + apply Hseq, Hl.
    + apply (LSeq r1 r2 "" (String c s));
        [apply nullable_lang; exact Hn|apply IH2; exact Hr].
  - apply alt_lang in H.
    inversion H as [| | |r1' r2' s' Hl|r1' r2' s' Hr| |]; subst.
    + apply LAltL, IH1, Hl.
    + apply LAltR, IH2, Hr.
  - apply seq_lang in H.
    inversion H as [| |r1' r2' s1 s2 Hs1 Hs2| | | |]; subst.
    apply (LStarCons r0 (String c s1) s2); [apply IH0; exact Hs1|exact Hs2].
Qed.

Lemma matches_lang (r : regex) (s : string) :
  matches r s = true <-> lang r s.
Proof.
  revert r. induction s as [|c s IH]; intros r; simpl.
  - apply nullable_lang.
  - rewrite IH. apply deriv_lang.
Qed.

End Matcher.

(** ** Request validation *)

Lemma validRecordType_supported (t : string) :
  apiv1.validRecordType t = true <-> In t apiv1.supported_types.
Proof.
  unfold apiv1.validRecordType, apiv1.supported_types. split.
  - intros H.
    repeat match type of H with
           | (if String.eqb ?a ?b then _ else _) = _ =>
               destruct (String.eqb a b) eqn:E;
               [ apply String.eqb_eq in E; subst; simpl;
                 intuition reflexivity
               | clear E ]
           end.
    discriminate H.
  - simpl. intros H.
    repeat (destruct H as [<-|H]; [reflexivity|]).
    destruct H.
Qed.

Lemma Validate_BadRequest (c : option apiv1.CreateQueryRequest)
  (e : apiv1.Error) :
  apiv1.CreateQueryRequest_Validate c = Some e ->
  apiv1.Code e = apiv1.ErrorCodeBadRequest.
Proof.
  unfold apiv1.CreateQueryRequest_Validate.
  destruct c as [c|]; [|intros [= <-]; reflexivity].
  repeat case_match; intros [= <-]; reflexivity.
Qed.

Lemma validRecordName_lang (n : string) :
  apiv1.validRecordName n = true <-> Regexp.lang apiv1.hostname n.
Proof. apply matches_lang. Qed.

Lemma Validate_None_iff (c : apiv1.CreateQueryRequest) :
  apiv1.CreateQueryRequest_Validate (Some c) = None <-> well_formed c.
Proof.
  unfold well_formed, apiv1.CreateQueryRequest_Validate.
  rewrite <- validRecordType_supported, <- validRecordName_lang.
  destruct (String.eqb_spec (apiv1.Type_ c) "") as [Ht|Ht].
  { rewrite Ht. simpl. split; [discriminate|]. intros [H _]. discriminate. }
  destruct (String.eqb_spec (apiv1.Name c) "") as [Hn|Hn].
  { rewrite Hn. simpl. split; [discriminate|]. intros (_ & H & _). lia. }
  destruct (apiv1.validRecordType (apiv1.Type_ c)); simpl;
    [|split; [discriminate|intros [H _]; discriminate]].
  destruct (Nat.ltb_spec (String.length (apiv1.Name c)) 4);
    [split; [discriminate|intros (_ & H' & _); lia]|].
  destruct (Nat.ltb_spec 253 (String.length (apiv1.Name c)));
    [split; [discriminate|intros (_ & H' & _); lia]|].
  destruct (apiv1.validRecordName (apiv1.Name c)); simpl.
  - split; [intros _; repeat split; lia|reflexivity].
  - split; [discriminate|intros (_ & _ & H'); discriminate].
Qed.

(** C7. Validation of a CreateQueryRequest lets through exactly the
    requests with a supported record type and a name of 4 to 253 bytes that
    is a word of the hostname pattern; every other request, the nil request
    included, is rejected with an error of kind BadRequest, and
    Server.CreateQuery then returns that error without making any call: no
    storage operation, nothing started in the background. *)
Theorem C7_validation_rejects_exactly {X : Externals}
  (rsvs : list app.resolver) (c : apiv1.CreateQueryRequest) :
  (apiv1.CreateQueryRequest_Validate (Some c) = None <-> well_formed c)
  /\ (forall req e,
        apiv1.CreateQueryRequest_Validate req = Some e ->
        apiv1.Code e = apiv1.ErrorCodeBadRequest
        /\ apiv1.Code e <> apiv1.ErrorCodeNotFound
        /\ apiv1.Code e <> apiv1.ErrorCodeInternal
        /\ app.CreateQuery rsvs req = app.Ret (Err (ApiError e), []))
  /\ (exists e, apiv1.CreateQueryRequest_Validate None = Some e).
Proof.
  split; [apply Validate_None_iff|]. split.
  - intros req e He.
    pose proof (Validate_BadRequest _ _ He) as Hc.
    rewrite Hc. repeat split; try discriminate.
    unfold app.CreateQuery. rewrite He. reflexivity.
  - eexists. reflexivity.
Qed.

(** ** Configuration of the file backend *)

(** C9. FileDB.validate accepts exactly the configurations whose Path is
    non-empty and not absolute; every rejection is a ValidationError on the
    field path, which DB.validate reports as file.path when the file
    backend is the one configured. *)
Theorem C9_FileDB_validate (IsAbs : string -> bool) (f : config.FileDB) :
  (config.FileDB_validate IsAbs f = None
   <-> config.Path f <> "" /\ IsAbs (config.Path f) = false)
  /\ (forall e, config.FileDB_validate IsAbs f = Some e ->
                config.Field e = "path")
  /\ (let d := {| config.File := Some f; config.Redis := None |} in
      (config.DB_validate IsAbs d = None
       <-> config.FileDB_validate IsAbs f = None)
      /\ (forall e, config.DB_validate IsAbs d = Some e ->
                    config.Field e = "file.path")).
Proof.
  unfold config.DB_validate, config.FileDB_validate.
  cbn [config.File config.Redis].
  destruct (String.eqb_spec (config.Path f) "") as [H|H].
  - split; [split; [discriminate|intros [H' _]; contradiction]|].
    split; [intros e [= <-]; reflexivity|].
    split; [split; discriminate|intros e [= <-]; reflexivity].
  - destruct (IsAbs (config.Path f)).
    + split; [split; [discriminate|intros [_ H']; discriminate]|].
      split; [intros e [= <-]; reflexivity|].
      split; [split; discriminate|intros e [= <-]; reflexivity].
    + split; [split; [intros _; split; [exact H|reflexivity]|reflexivity]|].
      split; [discriminate|].
      split; [split; reflexivity|discriminate].
Qed.

Example FileDB_validate_relative :
  config.FileDB_validate config.filepath_IsAbs
    {| config.Path := "dennis.json" |}
  = None.
Proof. reflexivity. Qed.

Example FileDB_validate_absolute :
  config.FileDB_validate config.filepath_IsAbs
    {| config.Path := "/tmp/dennis.json" |}
  = Some (config.mkValidationError "path" "path is not an absolute path").
Proof. reflexivity. Qed.

(** ** Server.GetQuery *)

(** C10. A GetQuery request whose ID is non-empty but does not parse as a
    UUID is answered with the BadRequest error on field .id; the program
    makes no call at all, so under every database and environment the world
    is left as it was and no storage read takes place. *)
Theorem C10_GetQuery_invalid_uuid {X : Externals}
  (req : apiv1.GetQueryRequest) :
  apiv1.ID req <> "" ->
  uuid_FromString (apiv1.ID req) = None ->
  let e := apiv1.mkError apiv1.ErrorCodeBadRequest ".id"
             "Invalid UUID for Query ID" in
  app.GetQuery (Some req) = app.Ret (Err (ApiError e))
  /\ apiv1.Code e <> apiv1.ErrorCodeNotFound
  /\ forall S (D : db.DB S) (E : app.env) (w : app.world S),
       app.run D E (app.GetQuery (Some req)) w = (Err (ApiError e), w).
Proof.
  intros Hne Hparse e.
  assert (Hp : app.GetQuery (Some req) = app.Ret (Err (ApiError e))).
  { unfold app.GetQuery, apiv1.GetQueryRequest_Validate.
    destruct (String.eqb_spec (apiv1.ID req) "") as [H|_]; [contradiction|].
    rewrite Hparse. reflexivity. }
  split; [exact Hp|]. split; [discriminate|].
  intros S D E w. rewrite Hp. reflexivity.
Qed.

Lemma C10_GetQuery_invalid_uuid_witness :
  let req := {| apiv1.ID := "not-a-uuid" |} in
  app.GetQuery (X := Sample.externals) (Some req)
  = app.Ret (Err (ApiError (apiv1.mkError apiv1.ErrorCodeBadRequest ".id"
                              "Invalid UUID for Query ID"))).
Proof.
  intros req.
  apply (C10_GetQuery_invalid_uuid (X := Sample.externals) req).
  - discriminate.
  - vm_compute. reflexivity.
Defined.

(** ** RecordFromRR *)

(** C3, as stated, fails: an SVCB record is among the "other" supported
    types, yet its priority is carried over into Priority. *)
Lemma C3_SVCB_populates_Priority :
  models.RecordFromRR
    (models.SVCB (X := Sample.externals) 3600 1 "svc.example.net.")
  = Some (models.mkRecord 3600 1 0 0 "" (Some ["svc.example.net."]))
  /\ ~ populates_by_type Sample.externals.
Proof.
  split; [reflexivity|]. intros H.
  destruct (H (models.SVCB (X := Sample.externals) 3600 1 "svc.example.net.")
              _ eq_refl) as (t & Ht & Hp & _).
  injection Ht as <-.
  destruct Hp as [Hp|[Hp|[]]]; [discriminate|discriminate Hp|discriminate Hp].
Qed.

(** C3, amended. RecordFromRR returns a Record exactly for the twelve
    supported types. In it Priority is populated only for MX, SRV and SVCB,
    Weight and Port only for SRV, Tag only for CAA; for A, AAAA, CNAME,
    DNSKEY, NS, PTR, SOA and TXT everything but TTL and Content is left at
    its zero value. What is populated is the value of the resource record:
    TTL is the TTL of its header for every type; Priority is the preference
    of an MX and the priority of an SRV or SVCB; Weight and Port are those
    of an SRV; Tag is the tag of a CAA; Content is the one string of the
    record (address, target, value or text form), and for TXT its strings
    as they are. *)
Theorem C3_RecordFromRR_population {X : Externals} (rr : models.RR) :
  match models.RecordFromRR rr with
  | None => models.RR_type rr = None
  | Some r =>
      exists t,
        models.RR_type rr = Some t
        /\ In t apiv1.supported_types
        /\ (models.Priority r <> 0 -> In t ["MX"; "SRV"; "SVCB"])
        /\ (models.Weight r <> 0 \/ models.Port r <> 0 -> t = "SRV")
        /\ (models.Tag r <> "" -> t = "CAA")
        /\ (In t ["A"; "AAAA"; "CNAME"; "DNSKEY"; "NS"; "PTR"; "SOA"; "TXT"] ->
            r = models.mkRecord (models.TTL r) 0 0 0 "" (models.Content r))
        /\ models.TTL r = RR_ttl rr
        /\ match rr with
           | models.A _ addr | models.AAAA _ addr =>
               models.Content r = Some [Addr_String addr]
           | models.CAA _ _ tag value =>
               models.Tag r = tag /\ models.Content r = Some [value]
           | models.CNAME _ target =>
               models.Content r = Some [target]
           | models.DNSKEY _ rdata =>
               models.Content r = Some [DNSKEY_String rdata]
           | models.MX _ preference mx =>
               models.Priority r = preference
               /\ models.Content r = Some [mx]
           | models.NS _ ns => models.Content r = Some [ns]
           | models.PTR _ ptr => models.Content r = Some [ptr]
           | models.SOA _ rdata =>
               models.Content r = Some [SOA_String rdata]
           | models.SRV _ priority weight port target =>
               models.Priority r = priority
               /\ models.Weight r = weight
               /\ models.Port r = port
               /\ models.Content r = Some [target]
           | models.SVCB _ priority target =>
               models.Priority r = priority
               /\ models.Content r = Some [target]
           | models.TXT _ txt => models.Content r = txt
           | models.OtherRR _ _ => False
           end
  end.
Proof.
  destruct rr; simpl; try reflexivity;
    eexists; (split; [reflexivity|]);
    (split; [simpl; intuition reflexivity|]);
    (split; [simpl; intros H; try (exfalso; apply H; reflexivity);
             intuition reflexivity|]);
    (split; [simpl; intros H; try reflexivity;
             exfalso; intuition congruence|]);
    (split; [simpl; intros H; try reflexivity;
             exfalso; apply H; reflexivity|]);
    (split; [simpl; intros H; try reflexivity;
             exfalso; intuition congruence|]);
    (split; [reflexivity|]);
    repeat split.
Qed.

(** What RecordFromRR carries over for the types with more than TTL and
    Content. *)
Lemma RecordFromRR_fields {X : Externals} :
  (forall ttl p mx,
      models.RecordFromRR (models.MX ttl p mx)
      = Some (models.mkRecord ttl p 0 0 "" (Some [mx])))
  /\ (forall ttl p w port target,
         models.RecordFromRR (models.SRV ttl p w port target)
         = Some (models.mkRecord ttl p w port "" (Some [target])))
  /\ (forall ttl p target,
         models.RecordFromRR (models.SVCB ttl p target)
         = Some (models.mkRecord ttl p 0 0 "" (Some [target])))
  /\ (forall ttl flag tag v,
         models.RecordFromRR (models.CAA ttl flag tag v)
         = Some (models.mkRecord ttl 0 0 0 tag (Some [v]))).
Proof. repeat split. Qed.

(** ** Documents: decoding what was encoded *)

Section Roundtrip.
Context {X : Externals} {L : ExternalsLaws X}.
Import json models.

Lemma mapM_dec_enc {A} (enc : A -> value) (dec : value -> option A) :
  (forall x, dec (enc x) = Some x) ->
  forall l, mapM dec (map enc l) = Some l.
Proof.
  intros H l. induction l as [|x l IH]; [reflexivity|].
  simpl. rewrite H. simpl. rewrite IH. reflexivity.
Qed.

(** A slice member, as [field] reads it back. *)
Lemma slice_dec_enc {A} (enc : A -> value) (dec : value -> option A) :
  (forall x, dec (enc x) = Some x) ->
  forall s : slice A,
    match enc_slice enc s with
    | JNull => Some None
    | _ => dec_slice dec (enc_slice enc s)
    end = Some s.
Proof.
  intros H [l|]; [|reflexivity].
  simpl. rewrite (mapM_dec_enc enc dec H). reflexivity.
Qed.

Lemma dec_string_enc (s : string) : dec_string (JStr s) = Some s.
Proof. reflexivity. Qed.

Lemma Record_dec_enc (r : Record_) : Record_dec (Record_enc r) = Some r.
Proof.
  destruct r as [ttl p w port tag content].
  unfold Record_enc, Record_dec, omitempty_int, omitempty_string, field.
  simpl.
  destruct (Z.eqb_spec p 0), (Z.eqb_spec w 0), (Z.eqb_spec port 0),
    (String.eqb_spec tag ""); subst; simpl;
    rewrite (slice_dec_enc JStr dec_string dec_string_enc);
    reflexivity.
Qed.

Lemma Lookup_dec_enc (l : Lookup) : Lookup_dec (Lookup_enc l) = Some l.
Proof.
  destruct l as [resolver rtt err records resolvedAt].
  unfold Lookup_enc, Lookup_dec, omitempty_string, field.
  simpl.
  destruct (String.eqb_spec err ""); subst; simpl;
    rewrite (slice_dec_enc Record_enc Record_dec Record_dec_enc);
    simpl; rewrite time_Parse_Format; reflexivity.
Qed.

Lemma Query_dec_enc (q : Query) : Query_dec (Query_enc q) = Some q.
Proof.
  destruct q as [id type name lookups createdAt finishedAt].
  unfold Query_enc, Query_dec, omitempty_ptr, field.
  destruct finishedAt as [t|]; simpl;
    rewrite uuid_FromString_String; simpl;
    rewrite (slice_dec_enc Lookup_enc Lookup_dec Lookup_dec_enc); simpl;
    rewrite ?time_Parse_Format; simpl; rewrite ?time_Parse_Format;
    reflexivity.
Qed.

Lemma Query_unmarshal_enc (q : Query) :
  unmarshal Query_dec zero_Query (Query_enc q) = Some q.
Proof. apply Query_dec_enc. Qed.

Lemma format_dec_enc (f : file.format) :
  file.format_dec (file.format_enc f) = Some f.
Proof.
  destruct f as [version queries].
  unfold file.format_enc, file.format_dec, field. simpl.
  rewrite (slice_dec_enc Query_enc Query_dec Query_dec_enc).
  reflexivity.
Qed.

(** Reading back what [writeJSON] wrote. *)
Lemma readJSON_writeJSON (f : file.format) :
  file.readJSON (fst (file.writeJSON f)) = Ok f.
Proof.
  pose proof (format_dec_enc f) as H.
  unfold file.readJSON, file.writeJSON. cbn [fst].
  unfold unmarshal, file.format_enc in *. cbv iota.
  rewrite H. reflexivity.
Qed.

End Roundtrip.

(** ** The file backend on formats *)

Section FileFormat.
Context {X : Externals}.
Import models file.

Lemma index_of_lookup (id : UUID) (qs : list Query) (i : nat) :
  index_of id qs = Some i ->
  exists q, qs !! i = Some q /\ ID q = id.
Proof.
  revert i. induction qs as [|q qs IH]; intros i; simpl; [discriminate|].
  destruct (decide (ID q = id)) as [Hq|Hq].
  - intros [= <-]. exists q. split; [reflexivity|exact Hq].
  - destruct (index_of id qs) as [j|]; [|discriminate].
    intros [= <-]. apply (IH j). reflexivity.
Qed.

Lemma index_of_None (id : UUID) (qs : list Query) :
  index_of id qs = None <-> Forall (fun q => ID q <> id) qs.
Proof.
  induction qs as [|q qs IH]; simpl.
  - split; [constructor|reflexivity].
  - destruct (decide (ID q = id)) as [Hq|Hq].
    + split; [discriminate|]. intros H. inversion H; contradiction.
    + destruct (index_of id qs) as [j|]; simpl.
      * split; [discriminate|]. intros H. inversion H as [|? ? _ Hqs].
        apply IH in Hqs. discriminate.
      * split; [|reflexivity]. intros _. constructor; [exact Hq|].
        apply IH. reflexivity.
Qed.

(** Writing through a pointer does not move anything when the ID stays. *)
Lemma index_of_insert (id : UUID) (qs : list Query) (i : nat) (q q' : Query) :
  qs !! i = Some q -> ID q' = ID q ->
  index_of id (<[i := q']> qs) = index_of id qs.
Proof.
  revert i. induction qs as [|q0 qs IH]; intros i Hi Hid; [reflexivity|].
  destruct i as [|i]; simpl in *.
  - injection Hi as ->. rewrite Hid. reflexivity.
  - rewrite (IH i Hi Hid). reflexivity.
Qed.

Lemma index_of_app (id : UUID) (qs : list Query) (q : Query) :
  index_of id (qs ++ [q]) =
  match index_of id qs with
  | Some i => Some i
  | None => if decide (ID q = id) then Some (length qs) else None
  end.
Proof.
  induction qs as [|q0 qs IH]; simpl.
  - destruct (decide (ID q = id)); reflexivity.
  - destruct (decide (ID q0 = id)); [reflexivity|].
    rewrite IH. destruct (index_of id qs); simpl; [reflexivity|].
    destruct (decide (ID q = id)); reflexivity.
Qed.

Lemma getQuery_Some (f : format) (id : UUID) (i : nat) (q : Query) :
  getQuery f id = Some (i, q) ->
  slice_elems (Queries f) !! i = Some q /\ ID q = id.
Proof.
  unfold getQuery. intros H.
  destruct (index_of id (slice_elems (Queries f))) as [j|] eqn:Hj;
    [|discriminate].
  simpl in H.
  destruct (index_of_lookup _ _ _ Hj) as (q0 & Hq0 & Hid).
  rewrite Hq0 in H. simpl in H. injection H as <- <-.
  split; assumption.
Qed.

Lemma getQuery_None (f : format) (id : UUID) :
  getQuery f id = None <->
  Forall (fun q => ID q <> id) (slice_elems (Queries f)).
Proof.
  rewrite <- index_of_None. unfold getQuery.
  destruct (index_of id (slice_elems (Queries f))) as [j|] eqn:Hj; simpl.
  - destruct (index_of_lookup _ _ _ Hj) as (q0 & Hq0 & _).
    rewrite Hq0. simpl. split; discriminate.
  - split; reflexivity.
Qed.

(** After an assignment through the pointer [i] that keeps the ID, every
    ID resolves to the same position, and only position [i] holds a new
    value. *)
Lemma getQuery_store (f : format) (i : nat) (q0 q' : Query) (id : UUID) :
  slice_elems (Queries f) !! i = Some q0 -> ID q' = ID q0 ->
  getQuery (store f i q') id =
  match getQuery f id with
  | Some (j, q) => Some (j, if decide (j = i) then q' else q)
  | None => None
  end.
Proof.
  intros Hi Hid. unfold getQuery, store. simpl.
  rewrite (index_of_insert id _ i q0 q' Hi Hid).
  destruct (index_of id (slice_elems (Queries f))) as [j|] eqn:Hj;
    [|reflexivity].
  simpl. destruct (index_of_lookup _ _ _ Hj) as (q & Hq & _).
  rewrite Hq. simpl.
  destruct (decide (j = i)) as [->|Hne].
  - rewrite list_lookup_insert_eq; [reflexivity|].
    apply lookup_lt_Some in Hi. exact Hi.
  - rewrite list_lookup_insert_ne by congruence. rewrite Hq. reflexivity.
Qed.

(** Appending keeps every Query that was found where it was. *)
Lemma getQuery_append (f : format) (qn : Query) (id : UUID) :
  getQuery (mkFormat (Version f) (slice_append (Queries f) qn)) id =
  match getQuery f id with
  | Some r => Some r
  | None =>
      if decide (ID qn = id)
      then Some (length (slice_elems (Queries f)), qn)
      else None
  end.
Proof.
  unfold getQuery, slice_append. simpl. rewrite index_of_app.
  destruct (index_of id (slice_elems (Queries f))) as [j|] eqn:Hj; simpl.
  - destruct (index_of_lookup _ _ _ Hj) as (q & Hq & _).
    rewrite lookup_app_l by (eapply lookup_lt_Some; exact Hq).
    rewrite Hq. reflexivity.
  - destruct (decide (ID qn = id)); [|reflexivity]. simpl.
    rewrite lookup_app_r by lia. rewrite Nat.sub_diag. reflexivity.
Qed.

End FileFormat.

(** ** The file backend on the file *)

Section FileBackend.
Context {X : Externals} {L : ExternalsLaws X}.
Import models file.

Lemma readJSON_enc (f : format) : readJSON (Some (format_enc f)) = Ok f.
Proof. apply (readJSON_writeJSON f). Qed.

(** [New] on an existing file leaves it alone. *)
Lemma New_existing (v : json.value) : New (Some v) = (Some v, None).
Proof. reflexivity. Qed.

Lemma file_GetQueryByID_eq (fs : filesystem) (f : format) (id : UUID) :
  readJSON fs = Ok f ->
  GetQueryByID id fs =
  match getQuery f id with
  | Some (_, q) => Ok q
  | None => Err (Errorf "could not get query: %w" ErrQueryNotFound)
  end.
Proof.
  intros Hf. unfold GetQueryByID, read. rewrite Hf.
  destruct (getQuery f id) as [[i q]|]; reflexivity.
Qed.

Lemma file_GetQueryByID_Ok (fs : filesystem) (id : UUID) (q : Query) :
  GetQueryByID id fs = Ok q ->
  exists f i, readJSON fs = Ok f /\ getQuery f id = Some (i, q).
Proof.
  unfold GetQueryByID, read.
  destruct (readJSON fs) as [f|e] eqn:Hf; [|discriminate].
  destruct (getQuery f id) as [[i q0]|] eqn:Hq; [|discriminate].
  intros [= <-]. exists f, i. split; [reflexivity|exact Hq].
Qed.

Lemma file_UpdateQuery_eq (fs : filesystem) (f : format) (query : Query) :
  readJSON fs = Ok f ->
  UpdateQuery query fs =
  match getQuery f (ID query) with
  | Some (i, q) =>
      (Some (format_enc (store f i (set_FinishedAt q (FinishedAt query)))),
       None)
  | None =>
      (fs, Some (Errorf "could not update query: %w" ErrQueryNotFound))
  end.
Proof.
  intros Hf. unfold UpdateQuery, write. rewrite Hf.
  destruct (getQuery f (ID query)) as [[i q]|]; reflexivity.
Qed.

Lemma file_CreateLookup_eq (fs : filesystem) (f : format) (id : UUID)
  (l : Lookup) :
  readJSON fs = Ok f ->
  CreateLookup id l fs =
  match getQuery f id with
  | Some (i, q) =>
      (Some (format_enc
               (store f i (set_Lookups q (slice_append (Lookups q) l)))),
       None)
  | None =>
      (fs, Some (Errorf "could not create lookup: %w" ErrQueryNotFound))
  end.
Proof.
  intros Hf. unfold CreateLookup, write. rewrite Hf.
  destruct (getQuery f id) as [[i q]|]; reflexivity.
Qed.

Lemma file_CreateQuery_eq (fs : filesystem) (f : format) (id : UUID)
  (now : Time) (query : Query) :
  readJSON fs = Ok f ->
  CreateQuery id now query fs =
  (Some (format_enc
           (mkFormat (Version f)
              (slice_append (Queries f)
                 (set_CreatedAt (set_ID query id) now)))),
   set_CreatedAt (set_ID query id) now, None).
Proof. intros Hf. unfold CreateQuery, write. rewrite Hf. reflexivity. Qed.

(** When the file cannot be read, the three writers leave it as it is. *)
Lemma write_unreadable (fs : filesystem) (e : error)
  (fn : format -> result format) :
  readJSON fs = Err e -> write fn fs = (fs, Some e).
Proof. intros Hf. unfold write. rewrite Hf. reflexivity. Qed.

Lemma keeps_unchanged (g : Query -> Query -> Prop) (fs : filesystem) :
  (forall id q, file.GetQueryByID id fs = Ok q -> g q q) -> keeps g fs fs.
Proof. intros Hg id q Hq. exists q. split; [exact Hq|]. eapply Hg, Hq. Qed.

Lemma file_GetQueryByID_ID (fs : filesystem) (id : UUID) (q : Query) :
  file.GetQueryByID id fs = Ok q -> ID q = id.
Proof.
  intros H. apply file_GetQueryByID_Ok in H.
  destruct H as (f & i & _ & H). apply getQuery_Some in H. tauto.
Qed.

Lemma keeps_store (g : Query -> Query -> Prop) (fs : filesystem)
  (f : format) (i : nat) (id0 : UUID) (q0 q' : Query) :
  readJSON fs = Ok f ->
  getQuery f id0 = Some (i, q0) ->
  ID q' = ID q0 ->
  g q0 q' ->
  (forall q, ID q <> id0 -> g q q) ->
  keeps g fs (Some (format_enc (store f i q'))).
Proof.
  intros Hf H0 Hid Hg Hother id q Hq.
  destruct (getQuery_Some _ _ _ _ H0) as [Hi Hid0].
  rewrite (file_GetQueryByID_eq fs f id Hf) in Hq.
  rewrite (file_GetQueryByID_eq _ _ id (readJSON_enc _)).
  rewrite (getQuery_store f i q0 q' id Hi Hid).
  destruct (getQuery f id) as [[j q1]|] eqn:Hj; [|discriminate].
  injection Hq as ->.
  destruct (decide (j = i)) as [->|Hne].
  - exists q'. split; [reflexivity|].
    apply getQuery_Some in Hj. destruct Hj as [Hj _].
    rewrite Hi in Hj. injection Hj as <-. exact Hg.
  - exists q. split; [reflexivity|]. apply Hother.
    intros Heq. apply Hne.
    destruct (getQuery_Some _ _ _ _ Hj) as [_ Hjid].
    rewrite <- Hjid, Heq, H0 in Hj. congruence.
Qed.

Lemma file_UpdateQuery_keeps (g : Query -> Query -> Prop) (query : Query)
  (fs : filesystem) :
  (forall q, ID q <> ID query -> g q q) ->
  (forall q, ID q = ID query -> g q (set_FinishedAt q (FinishedAt query))) ->
  keeps g fs (fst (file.UpdateQuery query fs)).
Proof.
  intros Hother Hg.
  destruct (readJSON fs) as [f|e] eqn:Hf.
  - rewrite (file_UpdateQuery_eq fs f query Hf).
    destruct (getQuery f (ID query)) as [[i q0]|] eqn:Hq0.
    + destruct (getQuery_Some _ _ _ _ Hq0) as [Hi Hid].
      apply (keeps_store g fs f i (ID query) q0); auto.
    + cbn [fst]. apply keeps_unchanged. intros id q Hq. apply Hother.
      rewrite (file_GetQueryByID_eq fs f id Hf) in Hq.
      destruct (getQuery f id) as [[j q1]|] eqn:Hj; [|discriminate].
      injection Hq as ->.
      destruct (getQuery_Some _ _ _ _ Hj) as [_ Hjid].
      intros Heq. rewrite <- Hjid, Heq, Hq0 in Hj. discriminate.
  - unfold file.UpdateQuery. rewrite (write_unreadable fs e _ Hf).
    cbn [wrap fst]. intros id q Hq. unfold file.GetQueryByID, read in Hq.
    rewrite Hf in Hq. discriminate.
Qed.

Lemma file_CreateLookup_keeps (g : Query -> Query -> Prop) (id : UUID)
  (l : Lookup) (fs : filesystem) :
  (forall q, ID q <> id -> g q q) ->
  (forall q, ID q = id -> g q (set_Lookups q (slice_append (Lookups q) l))) ->
  keeps g fs (fst (file.CreateLookup id l fs)).
Proof.
  intros Hother Hg.
  destruct (readJSON fs) as [f|e] eqn:Hf.
  - rewrite (file_CreateLookup_eq fs f id l Hf).
    destruct (getQuery f id) as [[i q0]|] eqn:Hq0.
    + destruct (getQuery_Some _ _ _ _ Hq0) as [Hi Hid].
      apply (keeps_store g fs f i id q0); auto.
    + cbn [fst]. apply keeps_unchanged. intros id' q Hq. apply Hother.
      rewrite (file_GetQueryByID_eq fs f id' Hf) in Hq.
      destruct (getQuery f id') as [[j q1]|] eqn:Hj; [|discriminate].
      injection Hq as ->.
      destruct (getQuery_Some _ _ _ _ Hj) as [_ Hjid].
      intros Heq. rewrite <- Hjid, Heq, Hq0 in Hj. discriminate.
  - unfold file.CreateLookup. rewrite (write_unreadable fs e _ Hf).
    cbn [wrap fst]. intros id' q Hq. unfold file.GetQueryByID, read in Hq.
    rewrite Hf in Hq. discriminate.
Qed.

Lemma file_CreateQuery_keeps (id : UUID) (now : Time) (query : Query)
  (fs : filesystem) :
  keeps eq fs (fst (fst (file.CreateQuery id now query fs))).
Proof.
  destruct (readJSON fs) as [f|e] eqn:Hf.
  - rewrite (file_CreateQuery_eq fs f id now query Hf). simpl.
    intros id' q Hq.
    rewrite (file_GetQueryByID_eq fs f id' Hf) in Hq.
    rewrite (file_GetQueryByID_eq _ _ id' (readJSON_enc _)).
    rewrite getQuery_append.
    destruct (getQuery f id') as [[j q1]|]; [|discriminate].
    injection Hq as ->. exists q. split; reflexivity.
  - unfold file.CreateQuery. rewrite (write_unreadable fs e _ Hf). simpl.
    apply keeps_unchanged. reflexivity.
Qed.

(** On an absent ID the three operations answer with the sentinel. *)
Lemma file_absent_NotFound (fs : filesystem) (f : format) (id : UUID)
  (query : Query) (l : Lookup) :
  readJSON fs = Ok f ->
  getQuery f id = None ->
  ID query = id ->
  (exists e, file.GetQueryByID id fs = Err e
             /\ errors_Is e ErrQueryNotFound = true)
  /\ errors_Is_opt (snd (file.UpdateQuery query fs)) ErrQueryNotFound = true
  /\ errors_Is_opt (snd (file.CreateLookup id l fs)) ErrQueryNotFound = true.
Proof.
  intros Hf Hq <-.
  rewrite (file_GetQueryByID_eq fs f _ Hf), (file_UpdateQuery_eq fs f _ Hf),
    (file_CreateLookup_eq fs f _ l Hf), Hq.
  split; [eexists; split; reflexivity|]. split; reflexivity.
Qed.

End FileBackend.

(** ** The Redis backend on the reference server *)

Section RedisBackend.
Context {X : Externals} {L : ExternalsLaws X}.
Import json models redis.

Lemma uuid_String_inj (a b : UUID) : uuid_String a = uuid_String b -> a = b.
Proof.
  intros H. apply (f_equal uuid_FromString) in H.
  rewrite !uuid_FromString_String in H. congruence.
Qed.

Lemma queryKey_inj (a b : UUID) : queryKey a = queryKey b -> a = b.
Proof.
  unfold queryKey. simpl. intros H. injection H as H.
  apply uuid_String_inj. exact H.
Qed.

(** The members of the document of a Query, and what the two partial
    updates of the backend make of them. *)
Lemma set_finishedAt_member (q : Query) (t : Time) :
  exists fs,
    Query_enc q = JObj fs
    /\ JObj (obj_set "finishedAt" (JStr (time_Format t)) fs)
       = Query_enc (set_FinishedAt q (Some t)).
Proof.
  destruct q as [id type name lookups createdAt [t0|]];
    eexists; (split; [reflexivity|]); reflexivity.
Qed.

Lemma append_lookups_member (q : Query) (ls : list Lookup) (l : Lookup) :
  Lookups q = Some ls ->
  exists fs,
    Query_enc q = JObj fs
    /\ obj_lookup "lookups" fs = Some (JArr (map Lookup_enc ls))
    /\ JObj (obj_set "lookups" (JArr (map Lookup_enc ls ++ [Lookup_enc l])) fs)
       = Query_enc (set_Lookups q (slice_append (Lookups q) l)).
Proof.
  destruct q as [id type name lookups createdAt [t0|]]; simpl;
    intros ->; eexists; (split; [reflexivity|]);
    (split; [reflexivity|]);
    unfold Query_enc, slice_append; simpl; rewrite map_app; reflexivity.
Qed.

Lemma lookups_member_nil (q : Query) :
  Lookups q = None ->
  exists fs, Query_enc q = JObj fs /\ obj_lookup "lookups" fs = Some JNull.
Proof.
  destruct q as [id type name lookups createdAt [t0|]]; simpl;
    intros ->; eexists; (split; reflexivity).
Qed.

Lemma redis_GetQueryByID_stored (st : server) (id : UUID) (q : Query) :
  st !! queryKey id = Some (Query_enc q) ->
  GetQueryByID redisjson id st = Ok q.
Proof.
  intros H. unfold GetQueryByID. simpl. unfold server_JSONGet.
  change (parse_path ".") with Root. cbv iota.
  rewrite H. rewrite Query_unmarshal_enc. reflexivity.
Qed.

Lemma redis_GetQueryByID_absent (st : server) (id : UUID) :
  st !! queryKey id = None ->
  GetQueryByID redisjson id st = Err ErrQueryNotFound.
Proof.
  intros H. unfold GetQueryByID. simpl. unfold server_JSONGet.
  change (parse_path ".") with Root. cbv iota.
  rewrite H. reflexivity.
Qed.

Lemma redis_CreateQuery_eq (st : server) (id : UUID) (now : Time)
  (query : Query) :
  CreateQuery redisjson id now query st =
  (<[queryKey id := Query_enc (set_CreatedAt (set_ID query id) now)]> st,
   set_CreatedAt (set_ID query id) now, None).
Proof. reflexivity. Qed.

Lemma redis_UpdateQuery_stored (st : server) (query q : Query) :
  st !! queryKey (ID query) = Some (Query_enc q) ->
  UpdateQuery redisjson query st =
  match FinishedAt query with
  | Some t =>
      (<[queryKey (ID query) := Query_enc (set_FinishedAt q (Some t))]> st,
       None)
  | None => (st, None)
  end.
Proof.
  intros H. unfold UpdateQuery.
  destruct (FinishedAt query) as [t|]; [|reflexivity].
  simpl. unfold server_JSONSet.
  change (parse_path "$.finishedAt") with (Member "finishedAt"). cbv iota.
  rewrite H.
  destruct (set_finishedAt_member q t) as (fs & -> & <-). reflexivity.
Qed.

Lemma redis_UpdateQuery_absent (st : server) (query : Query) :
  st !! queryKey (ID query) = None ->
  UpdateQuery redisjson query st =
  match FinishedAt query with
  | Some t =>
      (st, Some (Errorf "could not update JSON key: %w"
                   (LibError "ERR new objects must be created at the root")))
  | None => (st, None)
  end.
Proof.
  intros H. unfold UpdateQuery.
  destruct (FinishedAt query) as [t|]; [|reflexivity].
  simpl. unfold server_JSONSet.
  change (parse_path "$.finishedAt") with (Member "finishedAt"). cbv iota.
  rewrite H. reflexivity.
Qed.

Lemma redis_CreateLookup_stored (st : server) (id : UUID) (l : Lookup)
  (q : Query) :
  st !! queryKey id = Some (Query_enc q) ->
  CreateLookup redisjson id l st =
  match Lookups q with
  | Some _ =>
      (<[queryKey id :=
           Query_enc (set_Lookups q (slice_append (Lookups q) l))]> st,
       None)
  | None => (st, Some (Errorf "could not set JSON key: %w" redis_Nil))
  end.
Proof.
  intros H. unfold CreateLookup. simpl. unfold server_JSONArrAppend.
  change (parse_path "$.lookups") with (Member "lookups").
  rewrite H.
  destruct (Lookups q) as [ls|] eqn:Hls.
  - destruct (append_lookups_member q ls l Hls) as (fs & Hfs & Hlk & Hset).
    rewrite Hls in Hset. rewrite Hfs. cbv beta iota. rewrite Hlk.
    cbv beta iota. rewrite Hset. reflexivity.
  - destruct (lookups_member_nil q Hls) as (fs & -> & ->). reflexivity.
Qed.

Lemma redis_CreateLookup_absent (st : server) (id : UUID) (l : Lookup) :
  st !! queryKey id = None ->
  CreateLookup redisjson id l st =
  (st, Some (Errorf "could not set JSON key: %w" (LibError missing_key))).
Proof.
  intros H. unfold CreateLookup. simpl. unfold server_JSONArrAppend.
  rewrite H. reflexivity.
Qed.

End RedisBackend.

(** What the operations of the Redis backend make of the document stored
    for a Query, whichever Query they address. *)
Section RedisFrame.
Context {X : Externals} {L : ExternalsLaws X}.
Import json models redis.

Lemma server_JSONSet_other (key p : string) (v : value) (st : server)
  (k : string) :
  k <> key -> fst (server_JSONSet key p v st) !! k = st !! k.
Proof.
  intros Hk. unfold server_JSONSet.
  repeat case_match; simpl; try reflexivity;
    apply lookup_insert_ne; congruence.
Qed.

Lemma server_JSONArrAppend_other (key p : string) (v : value) (st : server)
  (k : string) :
  k <> key -> fst (server_JSONArrAppend key p v st) !! k = st !! k.
Proof.
  intros Hk. unfold server_JSONArrAppend.
  repeat case_match; simpl; try reflexivity;
    apply lookup_insert_ne; congruence.
Qed.

Lemma redis_UpdateQuery_other (st : server) (query : Query) (k : string) :
  k <> queryKey (ID query) ->
  fst (UpdateQuery redisjson query st) !! k = st !! k.
Proof.
  intros Hk. unfold UpdateQuery.
  destruct (FinishedAt query) as [t|]; [|reflexivity].
  pose proof (server_JSONSet_other (queryKey (ID query)) "$.finishedAt"
                (JStr (time_Format t)) st k Hk) as H.
  simpl. destruct (server_JSONSet _ _ _ st) as [st' [e|]]; exact H.
Qed.

Lemma redis_CreateLookup_other (st : server) (id : UUID) (l : Lookup)
  (k : string) :
  k <> queryKey id ->
  fst (CreateLookup redisjson id l st) !! k = st !! k.
Proof.
  intros Hk. unfold CreateLookup.
  pose proof (server_JSONArrAppend_other (queryKey id) "$.lookups"
                (Lookup_enc l) st k Hk) as H.
  simpl. destruct (server_JSONArrAppend _ _ _ st) as [st' [e|]]; exact H.
Qed.

Lemma redis_UpdateQuery_doc (st : server) (query q : Query) :
  st !! queryKey (ID q) = Some (Query_enc q) ->
  fst (UpdateQuery redisjson query st) !! queryKey (ID q)
  = Some (Query_enc (redis_updated query q)).
Proof.
  intros H. unfold redis_updated.
  destruct (decide (ID query = ID q)) as [Heq|Hne].
  - rewrite <- Heq in H |- *. rewrite (redis_UpdateQuery_stored st query q H).
    destruct (FinishedAt query) as [t|]; simpl; [|exact H].
    apply lookup_insert_eq.
  - rewrite redis_UpdateQuery_other; [exact H|].
    intros Hk. apply queryKey_inj in Hk. congruence.
Qed.

Lemma redis_CreateLookup_doc (st : server) (id : UUID) (l : Lookup)
  (q : Query) :
  st !! queryKey (ID q) = Some (Query_enc q) ->
  fst (CreateLookup redisjson id l st) !! queryKey (ID q)
  = Some (Query_enc (redis_appended id l q)).
Proof.
  intros H. unfold redis_appended.
  destruct (decide (id = ID q)) as [->|Hne].
  - rewrite (redis_CreateLookup_stored st (ID q) l q H).
    destruct (Lookups q) as [ls|]; simpl; [|exact H].
    apply lookup_insert_eq.
  - rewrite redis_CreateLookup_other; [exact H|].
    intros Hk. apply queryKey_inj in Hk. congruence.
Qed.

Lemma redis_CreateQuery_doc (st : server) (id : UUID) (now : Time)
  (query q : Query) :
  id <> ID q ->
  st !! queryKey (ID q) = Some (Query_enc q) ->
  fst (fst (CreateQuery redisjson id now query st)) !! queryKey (ID q)
  = Some (Query_enc q).
Proof.
  intros Hne H. rewrite redis_CreateQuery_eq. cbn [fst].
  rewrite lookup_insert_ne; [exact H|].
  intros Hk. apply queryKey_inj in Hk. congruence.
Qed.

End RedisFrame.

(** ** The storage contract *)

(** Whatever the server answers, the Redis backend never produces the
    sentinel from UpdateQuery or CreateLookup: the error of a command is
    wrapped as it comes. *)
Lemma redis_never_NotFound {X : Externals} {S : Type} (c : redis.conn S)
  (st : S) (id : UUID) (l : models.Lookup) (query : models.Query) :
  errors_Is_opt (snd (redis.UpdateQuery c query st)) ErrQueryNotFound = false
  /\ errors_Is_opt (snd (redis.CreateLookup c id l st)) ErrQueryNotFound
     = false.
Proof.
  split.
  - unfold redis.UpdateQuery.
    destruct (models.FinishedAt query) as [t|]; [|reflexivity].
    destruct (redis.JSONSet c _ _ _ st) as [st' [[|msg]|]]; reflexivity.
  - unfold redis.CreateLookup.
    destruct (redis.JSONArrAppend c _ _ _ st) as [st' [[|msg]|]]; reflexivity.
Qed.

(** C1. On a Redis server that holds no document for the Query ID,
    GetQueryByID answers with db.ErrQueryNotFound, but CreateLookup fails
    with the wrapped error reply of the server, which is not the sentinel,
    UpdateQuery with a FinishedAt does the same, and UpdateQuery without one
    reports success. No server reply can make the two return the sentinel. *)
Theorem C1_redis_absent_not_NotFound {X : Externals}
  (id : UUID) (l : models.Lookup) (query : models.Query) (t : Time) :
  let st : gmap string json.value := ∅ in
  redis.GetQueryByID redis.redisjson id st = Err ErrQueryNotFound
  /\ (exists e,
        redis.CreateLookup redis.redisjson id l st = (st, Some e)
        /\ errors_Is e ErrQueryNotFound = false)
  /\ (exists e,
        redis.UpdateQuery redis.redisjson
          (models.set_FinishedAt query (Some t)) st = (st, Some e)
        /\ errors_Is e ErrQueryNotFound = false)
  /\ redis.UpdateQuery redis.redisjson (models.set_FinishedAt query None) st
     = (st, None)
  /\ (forall S (c : redis.conn S) (s : S),
        errors_Is_opt (snd (redis.UpdateQuery c query s)) ErrQueryNotFound
        = false
        /\ errors_Is_opt (snd (redis.CreateLookup c id l s)) ErrQueryNotFound
           = false).
Proof.
  intros st.
  split; [reflexivity|].
  split; [eexists; split; reflexivity|].
  split; [eexists; split; reflexivity|].
  split; [reflexivity|].
  intros S c s. apply redis_never_NotFound.
Qed.

(** ** C8: durability of the file backend *)



Example file_read_sample :
  file.GetQueryByID (X := Sample.externals) 7%N Sample.disk = Ok Sample.query.
Proof. vm_compute. reflexivity. Qed.

(** ** C5: UpdateQuery propagates FinishedAt and nothing else *)

Lemma same_but_FinishedAt_refl {X : Externals} (q : models.Query) :
  same_but_FinishedAt q q.
Proof. repeat split. Qed.

Lemma same_but_FinishedAt_set {X : Externals} (q : models.Query)
  (t : option Time) :
  same_but_FinishedAt q (models.set_FinishedAt q t).
Proof. repeat split. Qed.

(** C5. Under the file backend, a Query that GetQueryByID returns before
    an UpdateQuery is still returned after it, under the same ID, with ID,
    Type, Name, Lookups and CreatedAt as they were, whatever the Query
    passed to UpdateQuery holds in those fields. Under the Redis backend the
    same holds of the document the backend keeps for a Query. *)
Theorem C5_UpdateQuery_only_FinishedAt {X : Externals} (L : ExternalsLaws X)
  (query q : models.Query) :
  (forall fs id,
      file.GetQueryByID id fs = Ok q ->
      exists q',
        file.GetQueryByID id (fst (file.UpdateQuery query fs)) = Ok q'
        /\ same_but_FinishedAt q q')
  /\ (forall st : gmap string json.value,
        st !! redis.queryKey (models.ID q) = Some (models.Query_enc q) ->
        exists q',
          fst (redis.UpdateQuery redis.redisjson query st)
            !! redis.queryKey (models.ID q) = Some (models.Query_enc q')
          /\ redis.GetQueryByID redis.redisjson (models.ID q)
               (fst (redis.UpdateQuery redis.redisjson query st)) = Ok q'
          /\ same_but_FinishedAt q q').
Proof.
  split.
  - intros fs id Hq.
    apply (file_UpdateQuery_keeps same_but_FinishedAt query fs); [| |exact Hq].
    + intros q0 _. apply same_but_FinishedAt_refl.
    + intros q0 _. apply same_but_FinishedAt_set.
  - intros st Hst. exists (redis_updated query q).
    pose proof (redis_UpdateQuery_doc st query q Hst) as Hdoc.
    split; [exact Hdoc|]. split.
    + apply redis_GetQueryByID_stored. exact Hdoc.
    + unfold redis_updated.
      destruct (decide (models.ID query = models.ID q));
        [|apply same_but_FinishedAt_refl].
      destruct (models.FinishedAt query);
        [apply same_but_FinishedAt_set|apply same_but_FinishedAt_refl].
Qed.

Lemma C5_UpdateQuery_only_FinishedAt_witness :
  let upd := models.mkQuery (X := Sample.externals) 7%N "MX" "other.example"
               None 1%N (Some 9000%N) in
  (exists q',
      file.GetQueryByID (models.ID Sample.query)
        (fst (file.UpdateQuery upd Sample.disk)) = Ok q'
      /\ same_but_FinishedAt Sample.query q')
  /\ (exists q',
        fst (redis.UpdateQuery redis.redisjson upd Sample.keys)
          !! redis.queryKey (models.ID Sample.query)
        = Some (models.Query_enc q')
        /\ redis.GetQueryByID redis.redisjson (models.ID Sample.query)
             (fst (redis.UpdateQuery redis.redisjson upd Sample.keys)) = Ok q'
        /\ same_but_FinishedAt Sample.query q').
Proof.
  intros upd.
  destruct (C5_UpdateQuery_only_FinishedAt Sample_laws upd Sample.query)
    as [Hfile Hredis].
  split.
  - apply Hfile. vm_compute. reflexivity.
  - apply Hredis. vm_compute. reflexivity.
Defined.

(** ** C4: who may change FinishedAt *)

(** C4, as stated, fails: UpdateQuery is a storage operation, and under the
    file backend it clears a FinishedAt that was set, under the Redis backend
    it replaces it by another instant. *)
Lemma C4_UpdateQuery_overwrites_FinishedAt :
  (models.FinishedAt Sample.query = Some 2000%N
   /\ file.GetQueryByID (models.ID Sample.query) Sample.disk = Ok Sample.query
   /\ file.GetQueryByID (models.ID Sample.query)
        (fst (file.UpdateQuery (models.set_FinishedAt Sample.query None)
                Sample.disk))
      = Ok (models.set_FinishedAt Sample.query None)
   /\ redis.GetQueryByID redis.redisjson (models.ID Sample.query) Sample.keys
      = Ok Sample.query
   /\ redis.GetQueryByID redis.redisjson (models.ID Sample.query)
        (fst (redis.UpdateQuery redis.redisjson
                (models.set_FinishedAt Sample.query (Some 9000%N))
                Sample.keys))
      = Ok (models.set_FinishedAt Sample.query (Some 9000%N)))
  /\ ~ FinishedAt_is_final (file.DB (X := Sample.externals))
  /\ ~ FinishedAt_is_final (redis.DB (X := Sample.externals) redis.redisjson).
Proof.
  split; [vm_compute; repeat split|]. split.
  - intros H.
    destruct (H Sample.disk (models.ID Sample.query) Sample.query 2000%N
                eq_refl eq_refl) as (_ & Hupd & _).
    destruct (Hupd (models.set_FinishedAt Sample.query None)) as (q' & Hq' & Hf).
    vm_compute in Hq'. injection Hq' as <-. discriminate Hf.
  - intros H.
    destruct (H Sample.keys (models.ID Sample.query) Sample.query 2000%N
                eq_refl eq_refl) as (_ & Hupd & _).
    destruct (Hupd (models.set_FinishedAt Sample.query (Some 9000%N)))
      as (q' & Hq' & Hf).
    vm_compute in Hq'. injection Hq' as <-. discriminate Hf.
Qed.

(** C4, amended. Under both backends CreateLookup and CreateQuery leave the
    FinishedAt of every stored Query as it is (under Redis, CreateQuery for
    an ID other than the Query's), and so does an UpdateQuery addressed to
    another Query. An UpdateQuery addressed to the Query itself stores the
    FinishedAt it is passed: under the file backend always, under the Redis
    backend unless the value passed is nil, which leaves the stored one. *)
Theorem C4_FinishedAt_kept {X : Externals} (L : ExternalsLaws X)
  (q : models.Query) :
  (forall fs id,
      file.GetQueryByID id fs = Ok q ->
      (forall id' l,
          exists q',
            file.GetQueryByID id (fst (file.CreateLookup id' l fs)) = Ok q'
            /\ models.FinishedAt q' = models.FinishedAt q)
      /\ (forall id' now query,
            exists q',
              file.GetQueryByID id
                (fst (fst (file.CreateQuery id' now query fs))) = Ok q'
              /\ models.FinishedAt q' = models.FinishedAt q)
      /\ (forall query,
            exists q',
              file.GetQueryByID id (fst (file.UpdateQuery query fs)) = Ok q'
              /\ models.FinishedAt q' =
                 if decide (models.ID query = models.ID q)
                 then models.FinishedAt query
                 else models.FinishedAt q))
  /\ (forall st : gmap string json.value,
        st !! redis.queryKey (models.ID q) = Some (models.Query_enc q) ->
        (forall id' l,
            exists q',
              redis.GetQueryByID redis.redisjson (models.ID q)
                (fst (redis.CreateLookup redis.redisjson id' l st)) = Ok q'
              /\ models.FinishedAt q' = models.FinishedAt q)
        /\ (forall id' now query,
              id' <> models.ID q ->
              exists q',
                redis.GetQueryByID redis.redisjson (models.ID q)
                  (fst (fst (redis.CreateQuery redis.redisjson id' now query
                               st))) = Ok q'
                /\ models.FinishedAt q' = models.FinishedAt q)
        /\ (forall query,
              exists q',
                redis.GetQueryByID redis.redisjson (models.ID q)
                  (fst (redis.UpdateQuery redis.redisjson query st)) = Ok q'
                /\ models.FinishedAt q' =
                   if decide (models.ID query = models.ID q)
                   then match models.FinishedAt query with
                        | Some t => Some t
                        | None => models.FinishedAt q
                        end
                   else models.FinishedAt q)).
Proof.
  split.
  - intros fs id Hq. split; [|split].
    + intros id' l.
      apply (file_CreateLookup_keeps
               (fun q q' => models.FinishedAt q' = models.FinishedAt q)
               id' l fs); [reflexivity|reflexivity|exact Hq].
    + intros id' now query.
      destruct (file_CreateQuery_keeps id' now query fs id q Hq)
        as (q' & Hq' & <-).
      exists q. split; [exact Hq'|reflexivity].
    + intros query.
      assert (Hk : keeps
                (fun q q' =>
                   models.FinishedAt q' =
                   if decide (models.ID query = models.ID q)
                   then models.FinishedAt query
                   else models.FinishedAt q)
                fs (fst (file.UpdateQuery query fs))).
      { apply file_UpdateQuery_keeps.
        - intros q0 Hne.
          destruct (decide (models.ID query = models.ID q0)); congruence.
        - intros q0 Heq.
          destruct (decide (models.ID query = models.ID q0)); [reflexivity|].
          congruence. }
      exact (Hk id q Hq).
  - intros st Hst. split; [|split].
    + intros id' l. exists (redis_appended id' l q). split.
      * apply redis_GetQueryByID_stored, redis_CreateLookup_doc, Hst.
      * unfold redis_appended.
        destruct (decide (id' = models.ID q)); [|reflexivity].
        destruct (models.Lookups q); reflexivity.
    + intros id' now query Hne. exists q. split; [|reflexivity].
      apply redis_GetQueryByID_stored, redis_CreateQuery_doc; assumption.
    + intros query. exists (redis_updated query q). split.
      * apply redis_GetQueryByID_stored, redis_UpdateQuery_doc, Hst.
      * unfold redis_updated.
        destruct (decide (models.ID query = models.ID q)); [|reflexivity].
        destruct (models.FinishedAt query); reflexivity.
Qed.

Lemma C4_FinishedAt_kept_witness :
  let id := models.ID Sample.query in
  let l := models.mkLookup (X := Sample.externals) "B" 3 "NXDOMAIN" None
             1700%N in
  (exists q',
      file.GetQueryByID id (fst (file.CreateLookup id l Sample.disk)) = Ok q'
      /\ models.FinishedAt q' = Some 2000%N)
  /\ (exists q',
        redis.GetQueryByID redis.redisjson id
          (fst (redis.CreateLookup redis.redisjson id l Sample.keys)) = Ok q'
        /\ models.FinishedAt q' = Some 2000%N).
Proof.
  intros id l.
  destruct (C4_FinishedAt_kept Sample_laws Sample.query) as [Hfile Hredis].
  split.
  - refine (proj1 (Hfile Sample.disk id _) id l). vm_compute. reflexivity.
  - refine (proj1 (Hredis Sample.keys _) id l). vm_compute. reflexivity.
Defined.

(** ** C6: what Server.CreateQuery returns *)

Lemma file_assigns_ID {X : Externals} : assigns_ID file.DB.
Proof.
  intros id now query fs. simpl. unfold file.CreateQuery.
  destruct (file.wrap _ _) as [fs' err]. reflexivity.
Qed.

Lemma redis_assigns_ID {X : Externals} {S : Type} (c : redis.conn S) :
  assigns_ID (redis.DB c).
Proof.
  intros id now query st. simpl. unfold redis.CreateQuery.
  destruct (redis.JSONSet c _ _ _ st) as [st' [e|]]; reflexivity.
Qed.

Lemma run_CreateQuery_Ok {X : Externals} {S : Type} (D : db.DB S)
  (E : app.env) (rsvs : list app.resolver)
  (req : option apiv1.CreateQueryRequest) (w w' : app.world S)
  (q : models.Query) (tasks : list (app.prog unit)) :
  assigns_ID D ->
  app.run D E (app.CreateQuery rsvs req) w = ((Ok q, tasks), w') ->
  exists c,
    req = Some c
    /\ q = models.mkQuery (app.uuid_at E (app.w_tick w)) (apiv1.Type_ c)
             (apiv1.Name c) (Some [])
             (app.time_at E (Datatypes.S (app.w_tick w))) None
    /\ tasks = [app.resolveAll rsvs q]
    /\ app.w_tick w' = (2 + app.w_tick w)%nat.
Proof.
  intros HD. unfold app.CreateQuery.
  destruct (apiv1.CreateQueryRequest_Validate req) as [e|]; [discriminate|].
  destruct req as [c|]; [|discriminate].
  cbn [app.run mbind app.prog_bind app.bind app.call app.handle].
  specialize (HD (app.uuid_at E (app.w_tick w))
                (app.time_at E (Datatypes.S (app.w_tick w)))
                (models.mkQuery uuid_Nil (apiv1.Type_ c) (apiv1.Name c)
                   (Some []) time_zero None) (app.w_store w)).
  destruct (db.CreateQuery D _ _ _ (app.w_store w)) as [[st q0] [e|]];
    cbn in HD |- *; [discriminate|].
  intros [= <- <- <-]. exists c. subst q0. repeat split.
Qed.

Lemma assigns_ID_returns_fresh {X : Externals} {S : Type} (D : db.DB S)
  (E : app.env) :
  assigns_ID D ->
  (forall n, app.uuid_at E n <> uuid_Nil) ->
  (forall n m, app.uuid_at E n = app.uuid_at E m -> n = m) ->
  returns_fresh_Query D E.
Proof.
  intros HD Hnil Hinj rsvs req w q tasks w' Hrun.
  destruct (run_CreateQuery_Ok D E rsvs req w w' q tasks HD Hrun)
    as (c & -> & -> & _ & Htick).
  cbn. repeat split; [apply Hnil|].
  intros rsvs2 req2 w2 q2 tasks2 w2' Hle Hrun2.
  destruct (run_CreateQuery_Ok D E rsvs2 req2 w2 w2' q2 tasks2 HD Hrun2)
    as (c2 & -> & -> & _ & _).
  cbn. intros Heq. apply Hinj in Heq. lia.
Qed.

(** C6. When Server.CreateQuery succeeds, under the file backend and under
    the Redis backend, the Query it returns carries the identifier the
    backend drew from the generator at that call, whatever the request held:
    it is not the nil UUID, and no later successful CreateQuery returns it
    again, given that the generator never yields the nil UUID and never
    repeats itself. Its Lookups are the empty, non-nil slice. At the level
    of the backends, CreateQuery overwrites the ID of the Query it is
    handed. *)
Theorem C6_CreateQuery_fresh_ID_empty_Lookups {X : Externals} (E : app.env) :
  (forall n, app.uuid_at E n <> uuid_Nil) ->
  (forall n m, app.uuid_at E n = app.uuid_at E m -> n = m) ->
  returns_fresh_Query file.DB E
  /\ returns_fresh_Query (redis.DB redis.redisjson) E
  /\ (forall id now query fs,
        models.ID (snd (fst (file.CreateQuery id now query fs))) = id)
  /\ (forall id now query st,
        models.ID (snd (fst (redis.CreateQuery redis.redisjson id now query
                               st))) = id).
Proof.
  intros Hnil Hinj.
  split; [apply assigns_ID_returns_fresh; auto using file_assigns_ID|].
  split; [apply assigns_ID_returns_fresh; auto using redis_assigns_ID|].
  split.
  - intros id now query fs.
    change (file.CreateQuery id now query fs)
      with (db.CreateQuery file.DB id now query fs).
    rewrite file_assigns_ID. reflexivity.
  - intros id now query st. reflexivity.
Qed.

Lemma C6_CreateQuery_fresh_ID_empty_Lookups_witness :
  let req := Some {| apiv1.Type_ := "A"; apiv1.Name := "example.com" |} in
  let w := app.mkWorld Sample.disk 0 [] in
  exists q tasks w',
    app.run file.DB Sample.environment (app.CreateQuery [] req) w
    = ((Ok q, tasks), w')
    /\ models.ID q = 100%N
    /\ models.Lookups q = Some [].
Proof.
  intros req w.
  destruct (C6_CreateQuery_fresh_ID_empty_Lookups Sample.environment)
    as (Hfile & _).
  - intros n. simpl. lia.
  - intros n m. simpl. lia.
  - destruct (app.run file.DB Sample.environment (app.CreateQuery [] req) w)
      as [[[q|e] tasks] w'] eqn:Hrun; [|vm_compute in Hrun; discriminate].
    exists q, tasks, w'. split; [reflexivity|].
    destruct (Hfile [] req w q tasks w' Hrun) as (Hid & _ & Hl & _).
    split; [exact Hid|exact Hl].
Defined.

(** ** C2: the outcomes of one resolution task *)

Section Resolve.
Context {X : Externals} {S : Type} (D : db.DB S) (E : app.env).
Context (rsv : app.resolver) (query : models.Query) (w : app.world S).

Let answer : result (app.Msg * Z) :=
  app.exchange E (models.Name query)
    (default 0 (StringToType (models.Type_ query))) "udp" (app.addr rsv).

Ltac step :=
  cbn [negb app.run app.calls mbind app.prog_bind app.bind app.call
         app.handle app.db_call_of app.w_tick app.w_store app.w_log].

Lemma resolve_answer_code (res : app.Msg) (rtt : Z) :
  answer = Ok (res, rtt) ->
  app.Rcode res <> app.RcodeSuccess ->
  let l := failed_Lookup rsv res rtt (app.time_at E (app.w_tick w)) in
  app.calls D E (app.resolve rsv query) w
  = [app.CallCreateLookup (models.ID query) l]
  /\ app.w_store (snd (app.run D E (app.resolve rsv query) w))
     = fst (db.CreateLookup D (models.ID query) l (app.w_store w)).
Proof.
  intros Hans Hrc l.
  assert (Hneq : (app.Rcode res =? app.RcodeSuccess) = false)
    by (apply Z.eqb_neq; exact Hrc).
  unfold app.resolve. step. fold answer. rewrite Hans. step.
  rewrite Hneq. step.
  change (app.with_Error _ _) with l.
  destruct (db.CreateLookup D (models.ID query) l (app.w_store w))
    as [st [e|]]; split; reflexivity.
Qed.



End Resolve.


(** Under the file backend the Lookup of a non-success answer lands at the
    end of the Lookups stored for the Query. *)
Lemma resolve_appends_to_file {X : Externals} (L : ExternalsLaws X)
  (E : app.env) (rsv : app.resolver) (query q0 : models.Query)
  (w : app.world file.filesystem) (res : app.Msg) (rtt : Z) :
  file.GetQueryByID (models.ID query) (app.w_store w) = Ok q0 ->
  app.exchange E (models.Name query)
    (default 0 (StringToType (models.Type_ query))) "udp" (app.addr rsv)
  = Ok (res, rtt) ->
  app.Rcode res <> app.RcodeSuccess ->
  exists q',
    file.GetQueryByID (models.ID query)
      (app.w_store (snd (app.run file.DB E (app.resolve rsv query) w)))
    = Ok q'
    /\ models.Lookups q'
       = slice_append (models.Lookups q0)
           (failed_Lookup rsv res rtt (app.time_at E (app.w_tick w))).
Proof.
  intros Hq0 Hans Hrc.
  destruct (resolve_answer_code file.DB E rsv query w res rtt Hans Hrc)
    as [_ Hst].
  rewrite Hst. cbn [db.CreateLookup file.DB].
  set (l := failed_Lookup rsv res rtt (app.time_at E (app.w_tick w))).
  assert (Hk : keeps
            (fun q q' =>
               models.ID q = models.ID query ->
               models.Lookups q' = slice_append (models.Lookups q) l)
            (app.w_store w)
            (fst (file.CreateLookup (models.ID query) l (app.w_store w)))).
  { apply file_CreateLookup_keeps.
    - intros q Hne Heq. contradiction.
    - intros q _ _. reflexivity. }
  destruct (Hk _ _ Hq0) as (q' & Hq' & Hl).
  exists q'. split; [exact Hq'|]. apply Hl.
  apply (file_GetQueryByID_ID _ _ _ Hq0).
Qed.

(** ** The model at work *)

(** One resolver answers, the other times out: one Lookup, FinishedAt set,
    nothing recorded for the silent resolver but a line in the log. *)
Example two_resolvers_one_silent :
  let req := Some {| apiv1.Type_ := "A"; apiv1.Name := "example.com" |} in
  let w0 := app.mkWorld (fst (file.New (X := Sample.externals) None)) 0 [] in
  match app.run file.DB Sample.network
          (app.CreateQuery Sample.resolvers req) w0 with
  | ((Ok q, [task]), w1) =>
      let w2 := snd (app.run file.DB Sample.network task w1) in
      q = models.mkQuery (X := Sample.externals) 100%N "A" "example.com"
            (Some []) 5001%N None
      /\ file.GetQueryByID (models.ID q) (app.w_store w2)
         = Ok (models.mkQuery (X := Sample.externals) 100%N "A" "example.com"
                 (Some [models.mkLookup (X := Sample.externals) "A" 12 ""
                          (Some [Sample.record]) 5002%N])
                 5001%N (Some 5003%N))
      /\ In ("ERROR", "could not resolve query") (app.w_log w2)
  | _ => False
  end.
Proof. vm_compute. intuition. Qed.

(** A resolver that answers NXDOMAIN adds a Lookup with that error and no
    Records. *)
Example resolver_answers_NXDOMAIN :
  let w0 := app.mkWorld Sample.disk 0 [] in
  let w1 :=
    snd (app.run file.DB Sample.refusing
           (app.resolve (app.mkResolver "B" "192.0.2.2:53") Sample.query)
           w0) in
  file.GetQueryByID (models.ID Sample.query) (app.w_store w1)
  = Ok (models.set_Lookups Sample.query
          (Some [Sample.lookup;
                 models.mkLookup (X := Sample.externals) "B" 4 "NXDOMAIN"
                   None 5000%N])).
Proof. vm_compute. reflexivity. Qed.

(** The same against the Redis backend on the reference server. *)
Example resolver_answers_NXDOMAIN_redis :
  let w0 := app.mkWorld Sample.keys 0 [] in
  let w1 :=
    snd (app.run (redis.DB redis.redisjson) Sample.refusing
           (app.resolve (app.mkResolver "B" "192.0.2.2:53") Sample.query)
           w0) in
  redis.GetQueryByID redis.redisjson (models.ID Sample.query) (app.w_store w1)
  = Ok (models.set_Lookups Sample.query
          (Some [Sample.lookup;
                 models.mkLookup (X := Sample.externals) "B" 4 "NXDOMAIN"
                   None 5000%N])).
Proof. vm_compute. reflexivity. Qed.

(** * Further properties *)

(** ** The hostname pattern in plain terms *)

Section Hostname.
Import Regexp.

Lemma length_append (s1 s2 : string) :
  String.length (s1 +:+ s2) = (String.length s1 + String.length s2)%nat.
Proof.
  induction s1 as [|c s1 IH]; [reflexivity|].
  rewrite append_cons. simpl. rewrite IH. reflexivity.
Qed.

Lemma append_assoc (s1 s2 s3 : string) :
  (s1 +:+ s2) +:+ s3 = s1 +:+ (s2 +:+ s3).
Proof.
  induction s1 as [|c s1 IH]; [reflexivity|].
  rewrite !append_cons, IH. reflexivity.
Qed.

Lemma all_bytes_append (p : ascii -> bool) (s1 s2 : string) :
  all_bytes p (s1 +:+ s2) = all_bytes p s1 && all_bytes p s2.
Proof.
  induction s1 as [|c s1 IH]; [reflexivity|].
  rewrite append_cons. simpl. rewrite IH. apply andb_assoc.
Qed.

Lemma lang_Seq_iff (r1 r2 : regex) (s : string) :
  lang (Seq r1 r2) s <->
  exists s1 s2, s = s1 +:+ s2 /\ lang r1 s1 /\ lang r2 s2.
Proof.
  split.
  - intros H. inversion H as [| |r1' r2' s1 s2 H1 H2| | | |]; subst.
    exists s1, s2. auto.
  - intros (s1 & s2 & -> & H1 & H2). apply LSeq; assumption.
Qed.

Lemma lang_Class_iff (p : ascii -> bool) (s : string) :
  lang (Class p) s <-> exists c, s = String c "" /\ p c = true.
Proof.
  split.
  - intros H. inversion H; subst. eauto.
  - intros (c & -> & Hp). apply LClass, Hp.
Qed.

Lemma lang_Opt_iff (r : regex) (s : string) :
  lang (Opt r) s <-> s = "" \/ lang r s.
Proof.
  unfold Opt. split.
  - intros H. inversion H as [| | |r1 r2 s' H1|r1 r2 s' H2| |]; subst.
    + left. apply lang_Eps, H1.
    + right. exact H2.
  - intros [->|H]; [apply LAltL; constructor|apply LAltR, H].
Qed.

Lemma lang_Str_iff (t s : string) : lang (Str t) s <-> s = t.
Proof.
  revert s. induction t as [|c t IH]; intros s; simpl.
  - split; [apply lang_Eps|intros ->; constructor].
  - rewrite lang_Seq_iff. split.
    + intros (s1 & s2 & -> & H1 & H2).
      apply lang_Class_iff in H1. destruct H1 as (c' & -> & Hc).
      apply Ascii.eqb_eq in Hc. subst c'. apply IH in H2. subst s2.
      reflexivity.
    + intros ->. exists (String c ""), t. split; [reflexivity|].
      split; [apply LClass, Ascii.eqb_refl|apply IH; reflexivity].
Qed.

Lemma lang_Star_all (p : ascii -> bool) (r : regex) (s : string) :
  lang r s -> r = Star (Class p) -> all_bytes p s = true.
Proof.
  induction 1 as [|p0 c Hp|r1 r2 s1 s2 H1 IH1 H2 IH2|r1 r2 s0 H0 IH0
                 |r1 r2 s0 H0 IH0|r0|r0 s1 s2 H1 IH1 H2 IH2];
    intros Hr; try discriminate; [reflexivity|].
  injection Hr as ->.
  rewrite all_bytes_append, (IH2 eq_refl), andb_true_r.
  apply lang_Class_iff in H1. destruct H1 as (c & -> & Hc).
  simpl. rewrite Hc. reflexivity.
Qed.

Lemma lang_Star_Class_iff (p : ascii -> bool) (s : string) :
  lang (Star (Class p)) s <-> all_bytes p s = true.
Proof.
  split; [intros H; apply (lang_Star_all p _ s H eq_refl)|].
  induction s as [|c s IH]; simpl; intros H; [constructor|].
  apply andb_true_iff in H. destruct H as [Hc Hs].
  apply (LStarCons (Class p) (String c "") s); [apply LClass, Hc|apply IH, Hs].
Qed.

Lemma lang_Plus_Class_iff (p : ascii -> bool) (s : string) :
  lang (Plus (Class p)) s <-> s <> "" /\ all_bytes p s = true.
Proof.
  unfold Plus. rewrite lang_Seq_iff. split.
  - intros (s1 & s2 & -> & H1 & H2).
    apply lang_Class_iff in H1. destruct H1 as (c & -> & Hc).
    apply lang_Star_Class_iff in H2.
    rewrite append_cons, append_nil_l.
    split; [discriminate|]. simpl. rewrite Hc, H2. reflexivity.
  - intros [Hne H]. destruct s as [|c s]; [contradiction|].
    simpl in H. apply andb_true_iff in H. destruct H as [Hc Hs].
    exists (String c ""), s. split; [reflexivity|].
    split; [apply LClass, Hc|apply lang_Star_Class_iff, Hs].
Qed.

Lemma lang_UpTo_Class_iff (p : ascii -> bool) (n : nat) (s : string) :
  lang (UpTo n (Class p)) s <->
  (String.length s <= n)%nat /\ all_bytes p s = true.
Proof.
  revert s. induction n as [|n IH]; intros s; simpl.
  - split.
    + intros H. apply lang_Eps in H. subst s. split; [simpl; lia|reflexivity].
    + intros [Hl _]. destruct s; [constructor|simpl in Hl; lia].
  - rewrite lang_Opt_iff, lang_Seq_iff. split.
    + intros [->|(s1 & s2 & -> & H1 & H2)]; [split; [simpl; lia|reflexivity]|].
      apply lang_Class_iff in H1. destruct H1 as (c & -> & Hc).
      apply IH in H2. destruct H2 as [Hl Ha].
      rewrite append_cons, append_nil_l.
      simpl. rewrite Hc, Ha. split; [lia|reflexivity].
    + intros [Hl Ha]. destruct s as [|c s]; [left; reflexivity|right].
      simpl in Hl, Ha. apply andb_true_iff in Ha. destruct Ha as [Hc Hs].
      exists (String c ""), s. split; [reflexivity|].
      split; [apply LClass, Hc|apply IH; split; [lia|exact Hs]].
Qed.

Lemma lang_Repeat_1_Class_iff (p : ascii -> bool) (n : nat) (s : string) :
  lang (Repeat 1 (Datatypes.S n) (Class p)) s <->
  (1 <= String.length s <= Datatypes.S n)%nat /\ all_bytes p s = true.
Proof.
  simpl Repeat. rewrite lang_Seq_iff. split.
  - intros (s1 & s2 & -> & H1 & H2).
    apply lang_Class_iff in H1. destruct H1 as (c & -> & Hc).
    apply lang_UpTo_Class_iff in H2. destruct H2 as [Hl Ha].
    rewrite append_cons, append_nil_l.
    simpl. rewrite Hc, Ha. split; [lia|reflexivity].
  - intros [[Hl1 Hl2] Ha]. destruct s as [|c s]; [simpl in Hl1; lia|].
    simpl in Hl2, Ha. apply andb_true_iff in Ha. destruct Ha as [Hc Hs].
    exists (String c ""), s. split; [reflexivity|].
    split; [apply LClass, Hc|apply lang_UpTo_Class_iff; split; [lia|exact Hs]].
Qed.

(** X1. validRecordName accepts exactly the names of the form
    host "." prefix tld, where host is a non-empty string over a-z, 0-9,
    hyphen and dot, prefix is empty or "xn--", and tld is 1 to 18 bytes over
    a-z and 0-9. *)
Theorem validRecordName_shape (n : string) :
  apiv1.validRecordName n = true <-> hostname_shape n.
Proof.
  rewrite validRecordName_lang. unfold apiv1.hostname, hostname_shape.
  rewrite lang_Seq_iff. split.
  - intros (host & rest & -> & Hhost & Hrest).
    apply lang_Plus_Class_iff in Hhost. destruct Hhost as [Hne Hall].
    apply lang_Seq_iff in Hrest. destruct Hrest as (dot & rest' & -> & Hdot & Hrest).
    apply lang_Class_iff in Hdot. destruct Hdot as (c & -> & Hc).
    apply Ascii.eqb_eq in Hc. subst c.
    apply lang_Seq_iff in Hrest. destruct Hrest as (pre & tld & -> & Hpre & Htld).
    apply lang_Opt_iff in Hpre. rewrite lang_Str_iff in Hpre.
    apply lang_Repeat_1_Class_iff in Htld. destruct Htld as [Hlen Htld].
    exists host, pre, tld. repeat split; try assumption; lia.
  - intros (host & pre & tld & -> & Hne & Hall & Hpre & Hlen & Htld).
    exists host, ("." +:+ pre +:+ tld). split; [reflexivity|].
    split; [apply lang_Plus_Class_iff; auto|].
    apply lang_Seq_iff. exists ".", (pre +:+ tld). split; [reflexivity|].
    split; [apply LClass; reflexivity|].
    apply lang_Seq_iff. exists pre, tld. split; [reflexivity|].
    split; [apply lang_Opt_iff; rewrite lang_Str_iff; exact Hpre|].
    apply lang_Repeat_1_Class_iff. auto.
Qed.

End Hostname.

Lemma all_bytes_impl (p q : ascii -> bool) (s : string) :
  (forall c, p c = true -> q c = true) ->
  all_bytes p s = true -> all_bytes q s = true.
Proof.
  intros Hpq. induction s as [|c s IH]; simpl; [reflexivity|].
  intros H. apply andb_true_iff in H. destruct H as [Hc Hs].
  rewrite (Hpq c Hc), (IH Hs). reflexivity.
Qed.

Lemma last_byte_append (s1 s2 : string) :
  s2 <> "" -> last_byte (s1 +:+ s2) = last_byte s2.
Proof.
  intros Hne. induction s1 as [|c s1 IH]; [reflexivity|].
  rewrite append_cons. simpl. rewrite IH.
  destruct (s1 +:+ s2) eqn:E; [|reflexivity].
  apply append_empty in E. destruct E as [_ E]. contradiction.
Qed.

Lemma last_byte_all (p : ascii -> bool) (s : string) :
  s <> "" -> all_bytes p s = true ->
  exists b, last_byte s = Some b /\ p b = true.
Proof.
  induction s as [|c s IH]; [contradiction|].
  intros _ H. simpl in H. apply andb_true_iff in H. destruct H as [Hc Hs].
  destruct s as [|c' s']; [exists c; split; [reflexivity|exact Hc]|].
  destruct (IH ltac:(discriminate) Hs) as (b & Hb & Hp).
  exists b. split; [exact Hb|exact Hp].
Qed.

Lemma contains_byte_append_r (c : ascii) (s1 s2 : string) :
  contains_byte c s2 = true -> contains_byte c (s1 +:+ s2) = true.
Proof.
  intros H. induction s1 as [|c1 s1 IH]; [exact H|].
  rewrite append_cons. simpl. rewrite IH. apply orb_true_r.
Qed.

(** X2. A request that passes CreateQueryRequest.Validate has a name made
    of the bytes a-z, 0-9, hyphen and dot only, with at least one dot and
    ending in a letter or digit: upper-case names and names with a trailing
    dot are rejected. *)
Theorem Validate_name_bytes (c : apiv1.CreateQueryRequest) :
  apiv1.CreateQueryRequest_Validate (Some c) = None ->
  all_bytes apiv1.label_char (apiv1.Name c) = true
  /\ contains_byte "." (apiv1.Name c) = true
  /\ exists b, last_byte (apiv1.Name c) = Some b /\ apiv1.alnum b = true.
Proof.
  intros H. apply Validate_None_iff in H. destruct H as (_ & _ & H).
  apply validRecordName_lang, validRecordName_shape in H.
  destruct H as (host & pre & tld & -> & Hne & Hhost & Hpre & Hlen & Htld).
  assert (Htld' : tld <> "") by (intros ->; simpl in Hlen; lia).
  split; [|split].
  - rewrite !all_bytes_append, Hhost.
    rewrite (all_bytes_impl apiv1.alnum apiv1.label_char tld); [|
      intros b Hb; unfold apiv1.label_char; rewrite Hb; reflexivity|exact Htld].
    destruct Hpre as [->| ->]; reflexivity.
  - apply contains_byte_append_r. reflexivity.
  - assert (Hpt : pre +:+ tld <> "").
    { intros E. apply append_empty in E. destruct E as [_ E]. contradiction. }
    rewrite last_byte_append.
    + rewrite last_byte_append by exact Hpt.
      rewrite last_byte_append by exact Htld'.
      apply last_byte_all; assumption.
    + rewrite append_cons. discriminate.
Qed.

Lemma Validate_name_bytes_witness :
  all_bytes apiv1.label_char "example.com" = true
  /\ contains_byte "." "example.com" = true
  /\ exists b, last_byte "example.com" = Some b /\ apiv1.alnum b = true.
Proof.
  apply (Validate_name_bytes
           {| apiv1.Type_ := "A"; apiv1.Name := "example.com" |}).
  vm_compute. reflexivity.
Defined.

Example Validate_rejects_upper_case_and_trailing_dot :
  apiv1.CreateQueryRequest_Validate
    (Some {| apiv1.Type_ := "A"; apiv1.Name := "Example.com" |})
  = Some (apiv1.BadRequest ".name" "Name of domain is invalid")
  /\ apiv1.CreateQueryRequest_Validate
       (Some {| apiv1.Type_ := "A"; apiv1.Name := "example.com." |})
     = Some (apiv1.BadRequest ".name" "Name of domain is invalid").
Proof. vm_compute. split; reflexivity. Qed.

(** ** The API errors *)




(** ** The configuration *)

Section ConfigValidate.
Variable IsAbs : string -> bool.

Lemma Listener_validate_None (l : option config.Listener) :
  config.Listener_validate l = None <-> valid_listener l.
Proof.
  unfold config.Listener_validate, valid_listener.
  destruct l as [l|].
  - destruct (String.eqb_spec (config.Listener_Addr l) "") as [H|H].
    + split; [discriminate|]. intros (l' & [= <-] & Hl). contradiction.
    + split; [intros _; exists l; auto|reflexivity].
  - split; [discriminate|]. intros (l' & Hl & _). discriminate.
Qed.

Lemma Resolver_validate_None (r : option config.Resolver) :
  config.Resolver_validate r = None <-> valid_resolver r.
Proof.
  unfold config.Resolver_validate, valid_resolver.
  destruct r as [r|].
  - destruct (String.eqb_spec (config.Resolver_Name r) "") as [Hn|Hn].
    + split; [discriminate|]. intros (r' & [= <-] & H & _). contradiction.
    + destruct (String.eqb_spec (config.Resolver_Addr r) "") as [Ha|Ha].
      * split; [discriminate|]. intros (r' & [= <-] & _ & H). contradiction.
      * split; [intros _; exists r; auto|reflexivity].
  - split; [discriminate|]. intros (r' & Hr & _). discriminate.
Qed.

Lemma validate_resolvers_None (i : nat) (rs : list (option config.Resolver)) :
  config.validate_resolvers i rs = None <-> Forall valid_resolver rs.
Proof.
  revert i. induction rs as [|r rs IH]; intros i; simpl.
  - split; [constructor|reflexivity].
  - destruct (config.Resolver_validate r) as [e|] eqn:Hr.
    + split; [discriminate|]. intros H. inversion H as [|? ? Hv _]; subst.
      apply Resolver_validate_None in Hv. congruence.
    + rewrite IH. split.
      * intros H. constructor; [apply Resolver_validate_None, Hr|exact H].
      * intros H. inversion H; assumption.
Qed.

Lemma prefix_None (ve : option config.ValidationError) (p : string) :
  config.prefix ve p = None <-> ve = None.
Proof. destruct ve; simpl; split; congruence. Qed.

Lemma DB_validate_None (d : config.DB) :
  config.DB_validate IsAbs d = None <-> valid_db IsAbs d.
Proof.
  unfold config.DB_validate, valid_db.
  destruct (config.File d) as [f|], (config.Redis d) as [r|].
  - split; [discriminate|].
    intros [(f' & _ & H & _)|(r' & H & _)]; discriminate.
  - rewrite prefix_None. unfold config.FileDB_validate.
    destruct (String.eqb_spec (config.Path f) "") as [Hp|Hp].
    + split; [discriminate|].
      intros [(f' & [= <-] & _ & H & _)|(r' & H & _)];
        [contradiction|discriminate].
    + destruct (IsAbs (config.Path f)) eqn:Ha.
      * split; [discriminate|].
        intros [(f' & [= <-] & _ & _ & H)|(r' & H & _)];
          [congruence|discriminate].
      * split; [intros _; left; exists f; auto|reflexivity].
  - rewrite prefix_None. unfold config.RedisDB_validate.
    destruct (String.eqb_spec (config.Addr r) "") as [Hp|Hp].
    + split; [discriminate|].
      intros [(f' & H & _)|(r' & _ & [= <-] & H & _)];
        [discriminate|contradiction].
    + destruct (Z.ltb_spec (config.DB_index r) 0) as [Hi|Hi].
      * split; [discriminate|].
        intros [(f' & H & _)|(r' & _ & [= <-] & _ & H)]; [discriminate|lia].
      * split; [intros _; right; exists r; auto|reflexivity].
  - split; [discriminate|].
    intros [(f' & H & _)|(r' & _ & H & _)]; discriminate.
Qed.

(** X4. Config.Validate accepts exactly the configurations with version 1,
    a listener with a non-empty address, resolvers that are all present with
    a non-empty name and a non-empty address, and exactly one database
    backend that is itself valid. Nothing asks for a resolver to exist:
    an empty list of resolvers is accepted. *)
Theorem Config_Validate_accepts (c : config.Config) :
  (config.Config_Validate IsAbs c = None <->
   config.Version c = 1
   /\ valid_listener (config.Listen c)
   /\ Forall valid_resolver (config.Resolvers c)
   /\ valid_db IsAbs (config.Config_DB c))
  /\ (config.Version c = 1 ->
      valid_listener (config.Listen c) ->
      valid_db IsAbs (config.Config_DB c) ->
      config.Resolvers c = [] ->
      config.Config_Validate IsAbs c = None).
Proof.
  assert (Hiff :
    config.Config_Validate IsAbs c = None <->
    config.Version c = 1
    /\ valid_listener (config.Listen c)
    /\ Forall valid_resolver (config.Resolvers c)
    /\ valid_db IsAbs (config.Config_DB c)).
  { unfold config.Config_Validate.
    rewrite <- Listener_validate_None, <- (validate_resolvers_None 0),
      <- DB_validate_None.
    destruct (Z.eqb_spec (config.Version c) 1) as [Hv|Hv]; simpl.
    - destruct (config.Listener_validate (config.Listen c)) as [e|].
      + split; [destruct e; simpl; discriminate|].
        intros (_ & H & _). discriminate.
      + destruct (config.validate_resolvers 0 (config.Resolvers c)) as [e|].
        * split; [discriminate|]. intros (_ & _ & H & _). discriminate.
        * destruct (config.DB_validate IsAbs (config.Config_DB c)) as [e|].
          -- split; [destruct e; simpl; discriminate|].
             intros (_ & _ & _ & H). discriminate.
          -- split; [auto|reflexivity].
    - split; [discriminate|]. intros (H & _). contradiction. }
  split; [exact Hiff|].
  intros Hv Hl Hd Hr. apply Hiff. rewrite Hr. auto.
Qed.

Lemma validate_resolvers_first (i : nat)
  (pre post : list (option config.Resolver)) (bad : option config.Resolver)
  (e : config.ValidationError) :
  Forall valid_resolver pre ->
  config.Resolver_validate bad = Some e ->
  config.validate_resolvers i (pre ++ bad :: post)
  = Some (config.mkValidationError
            ("resolvers[" +:+ Itoa (Z.of_nat (i + length pre)) +:+ "]."
             +:+ config.Field e)
            (config.Message e)).
Proof.
  revert i. induction pre as [|r pre IH]; intros i Hpre Hbad; simpl.
  - rewrite Hbad. simpl. rewrite Nat.add_0_r. reflexivity.
  - inversion Hpre as [|? ? Hr Hpre']; subst.
    apply Resolver_validate_None in Hr. rewrite Hr.
    rewrite (IH (Datatypes.S i) Hpre' Hbad).
    replace (Datatypes.S i + length pre)%nat
      with (i + Datatypes.S (length pre))%nat by lia.
    reflexivity.
Qed.

(** X5. With the version and the listener in order, Config.Validate
    reports the first invalid resolver, whatever comes after it, under the
    field resolvers[i]. followed by the field of the resolver's own error,
    where i is the resolver's position counted from 0 and written in
    decimal; for a nil resolver that own field is empty, so the path ends
    in the dot. *)
Theorem Config_Validate_first_resolver (c : config.Config)
  (pre post : list (option config.Resolver)) (bad : option config.Resolver)
  (e : config.ValidationError) :
  config.Version c = 1 ->
  valid_listener (config.Listen c) ->
  config.Resolvers c = pre ++ bad :: post ->
  Forall valid_resolver pre ->
  config.Resolver_validate bad = Some e ->
  config.Config_Validate IsAbs c
  = Some (config.mkValidationError
            ("resolvers[" +:+ Itoa (Z.of_nat (length pre)) +:+ "]."
             +:+ config.Field e)
            (config.Message e))
  /\ (bad = None ->
      config.Config_Validate IsAbs c
      = Some (config.mkValidationError
                ("resolvers[" +:+ Itoa (Z.of_nat (length pre)) +:+ "].")
                "resolver is required")).
Proof.
  intros Hv Hl Hrs Hpre Hbad.
  assert (H : config.Config_Validate IsAbs c
              = Some (config.mkValidationError
                        ("resolvers[" +:+ Itoa (Z.of_nat (length pre))
                         +:+ "]." +:+ config.Field e)
                        (config.Message e))).
  { unfold config.Config_Validate. rewrite Hv. simpl.
    apply Listener_validate_None in Hl. rewrite Hl, Hrs.
    rewrite (validate_resolvers_first 0 pre post bad e Hpre Hbad).
    reflexivity. }
  split; [exact H|].
  intros ->. rewrite H. simpl in Hbad. injection Hbad as <-. simpl.
  rewrite append_empty_r. reflexivity.
Qed.

End ConfigValidate.

Lemma Config_Validate_first_resolver_witness :
  config.Config_Validate config.filepath_IsAbs Sample.broken_config
  = Some (config.mkValidationError "resolvers[1]." "resolver is required").
Proof.
  refine (proj1 (Config_Validate_first_resolver config.filepath_IsAbs
                   Sample.broken_config
                   [Some {| config.Resolver_Name := "CloudFlare";
                            config.Resolver_Addr := "1.1.1.1";
                            config.Resolver_Port := 0 |}]
                   [] None
                   (config.mkValidationError "" "resolver is required")
                   _ _ _ _ _)).
  - reflexivity.
  - eexists. split; [reflexivity|discriminate].
  - reflexivity.
  - constructor; [|constructor].
    eexists. split; [reflexivity|]. split; discriminate.
  - reflexivity.
Defined.

Example Config_Validate_sample :
  config.Config_Validate config.filepath_IsAbs Sample.config = None
  /\ config.Config_Validate config.filepath_IsAbs
       (config.mkConfig 1 (config.Config_Logging Sample.config)
          (config.Listen Sample.config) [] (config.Config_DB Sample.config))
     = None.
Proof. split; reflexivity. Qed.

Section ConfigRead.
Variable IsAbs : string -> bool.
Variable open : string -> string + string.
Variable decode : string -> config.Config + string.

(** X6. Every configuration Read returns has version 1 and passes
    Config.Validate. It is the decoded configuration, except that a decoded
    version below 1, the zero of an absent key included, has been replaced
    by 1; a decoded version above 1 is never returned. *)
Theorem Read_returns_valid (path : string) (cfg : config.Config) :
  config.Read IsAbs open decode path = inl cfg ->
  config.Version cfg = 1
  /\ config.Config_Validate IsAbs cfg = None
  /\ exists contents cfg0,
       open path = inl contents
       /\ decode contents = inl cfg0
       /\ config.Version cfg0 <= 1
       /\ cfg = config.mkConfig 1 (config.Config_Logging cfg0)
                  (config.Listen cfg0) (config.Resolvers cfg0)
                  (config.Config_DB cfg0).
Proof.
  unfold config.Read. intros H.
  destruct (open path) as [contents|msg] eqn:Ho; [|discriminate].
  destruct (decode contents) as [cfg0|msg] eqn:Hd; [|discriminate].
  destruct (Z.ltb_spec (config.Version cfg0) 1) as [Hlt|Hge].
  - destruct (config.Config_Validate IsAbs _) eqn:Hv in H; [discriminate|].
    injection H as <-.
    split; [reflexivity|]. split; [exact Hv|].
    exists contents, cfg0. repeat split; auto. lia.
  - destruct (config.Config_Validate IsAbs cfg0) eqn:Hv; [discriminate|].
    injection H as <-.
    assert (Hone : config.Version cfg0 = 1).
    { apply (Config_Validate_accepts IsAbs cfg0) in Hv. tauto. }
    split; [exact Hone|]. split; [exact Hv|].
    exists contents, cfg0. repeat split; auto; [lia|].
    destruct cfg0; simpl in *; subst; reflexivity.
Qed.

End ConfigRead.

Lemma Read_returns_valid_witness :
  config.Version Sample.config = 1
  /\ config.Config_Validate config.filepath_IsAbs Sample.config = None.
Proof.
  destruct (Read_returns_valid config.filepath_IsAbs
              (fun _ => inl "version: 0")
              (fun _ => inl (config.mkConfig 0
                               (config.Config_Logging Sample.config)
                               (config.Listen Sample.config)
                               (config.Resolvers Sample.config)
                               (config.Config_DB Sample.config)))
              "/etc/dennis/config.yml" Sample.config)
    as (Hv & Hok & _).
  - reflexivity.
  - split; assumption.
Defined.

(** ** The choice of the backend and the resolvers of the Server *)

(** X7. For a database configuration that DB.validate accepts, getDB opens
    the one backend that is configured and reports that backend's failure
    to open under its own prefix; it never answers "no database
    configured". *)
Theorem getDB_after_validate {C : Type} (IsAbs : string -> bool)
  (file_FromConfig : config.FileDB -> result C)
  (redis_FromConfig : config.RedisDB -> result C) (d : config.DB) :
  config.DB_validate IsAbs d = None ->
  ((exists f,
       config.File d = Some f /\ config.Redis d = None
       /\ main.getDB file_FromConfig redis_FromConfig d
          = match file_FromConfig f with
            | Err err => Err (Errorf "file: %w" err)
            | Ok conn => Ok conn
            end)
   \/ (exists r,
         config.File d = None /\ config.Redis d = Some r
         /\ main.getDB file_FromConfig redis_FromConfig d
            = match redis_FromConfig r with
              | Err err => Err (Errorf "redis: %w" err)
              | Ok conn => Ok conn
              end))
  /\ main.getDB file_FromConfig redis_FromConfig d
     <> Err (LibError "no database configured").
Proof.
  intros H. apply DB_validate_None in H. unfold main.getDB.
  destruct H as [(f & Hf & Hr & _)|(r & Hf & Hr & _)]; rewrite Hf, Hr.
  - split; [left; exists f; auto|].
    destruct (file_FromConfig f); discriminate.
  - split; [right; exists r; auto|].
    destruct (redis_FromConfig r); discriminate.
Qed.

Lemma getDB_after_validate_witness :
  main.getDB (C := string) (fun f => Ok (config.Path f))
    (fun r => Ok (config.Addr r)) (config.Config_DB Sample.config)
  <> Err (LibError "no database configured").
Proof.
  apply (getDB_after_validate config.filepath_IsAbs).
  reflexivity.
Defined.

Lemma NewServer_None (rsv : list (option config.Resolver)) :
  app.NewServer rsv = None <-> In None rsv.
Proof.
  induction rsv as [|[r|] rsv IH]; simpl.
  - split; [discriminate|tauto].
  - destruct (app.NewServer rsv) as [rs|]; simpl.
    + split; [discriminate|]. intros [H|H]; [discriminate|].
      apply IH in H. discriminate.
    + split; [intros _; right; apply IH; reflexivity|reflexivity].
  - split; [intros _; left; reflexivity|reflexivity].
Qed.

Lemma NewServer_valid (rsv : list (option config.Resolver)) :
  Forall valid_resolver rsv ->
  app.NewServer rsv = Some (map resolver_of (omap id rsv)).
Proof.
  induction 1 as [|r rsv (r' & -> & _) _ IH]; [reflexivity|].
  simpl. rewrite IH. reflexivity.
Qed.

(** X8. NewServer panics exactly when a configured resolver is nil. For
    the resolvers of a configuration that Config.Validate accepts it does
    not panic and gives the Server one resolver per configured resolver, in
    the order of the configuration, with the configured name, which is not
    empty, and on port 53 unless the configured port is positive. *)
Theorem NewServer_after_validate (IsAbs : string -> bool)
  (c : config.Config) :
  (forall rsv, app.NewServer rsv = None <-> In None rsv)
  /\ (config.Config_Validate IsAbs c = None ->
      exists rs,
        app.NewServer (config.Resolvers c) = Some rs
        /\ length rs = length (config.Resolvers c)
        /\ Forall2
             (fun r o => exists r', o = Some r' /\ r = resolver_of r')
             rs (config.Resolvers c)
        /\ Forall (fun r => app.name r <> "") rs).
Proof.
  split; [apply NewServer_None|].
  intros H. apply Config_Validate_accepts in H.
  destruct H as (_ & _ & Hrs & _).
  exists (map resolver_of (omap id (config.Resolvers c))).
  split; [apply NewServer_valid, Hrs|].
  induction Hrs as [|r rsv (r' & -> & Hn & _) _ IH]; simpl.
  - repeat split; constructor.
  - destruct IH as (Hlen & Hall & Hne).
    split; [f_equal; exact Hlen|].
    split; [constructor; [exists r'; auto|exact Hall]|].
    constructor; [exact Hn|exact Hne].
Qed.

Example NewServer_sample :
  app.NewServer (config.Resolvers Sample.config)
  = Some [app.mkResolver "CloudFlare" "1.1.1.1:53";
          app.mkResolver "Google DNS" "8.8.4.4:5353"]
  /\ app.NewServer (config.Resolvers Sample.broken_config) = None.
Proof. split; reflexivity. Qed.

(** ** The build information *)

(** X9. For n not below zero, GetCommit n returns the first n bytes of the
    commit, or the whole commit when it has no more than n bytes: a prefix
    of the commit of length min(n, len(commit)). For a negative n it
    panics. *)
Theorem GetCommit_prefix (commit : string) (n : Z) :
  (0 <= n ->
   exists s rest,
     build.GetCommit commit n = Some s
     /\ commit = s +:+ rest
     /\ String.length s = Nat.min (Z.to_nat n) (String.length commit))
  /\ (n < 0 -> build.GetCommit commit n = None).
Proof.
  unfold build.GetCommit. split.
  - intros Hn.
    destruct (Z.ltb_spec n (Z.of_nat (String.length commit))) as [Hlt|Hge].
    + destruct (Z.ltb_spec n 0) as [H0|_]; [lia|].
      assert (Hle : (Z.to_nat n <= String.length commit)%nat) by lia.
      clear Hlt Hn. revert Hle. generalize (Z.to_nat n) as k. clear n.
      induction commit as [|c commit IH]; intros k Hle.
      * assert (k = 0%nat) by (simpl in Hle; lia). subst k.
        exists "", "". repeat split.
      * destruct k as [|k].
        -- exists "", (String c commit). repeat split.
        -- simpl in Hle.
           destruct (IH k ltac:(lia)) as (s & rest & Hs & Hc & Hl).
           injection Hs as Hs.
           exists (String c s), rest. simpl. rewrite Hs.
           split; [reflexivity|]. split; [rewrite append_cons; congruence|].
           rewrite Hl. reflexivity.
    + exists commit, "". split; [reflexivity|].
      split; [rewrite append_empty_r; reflexivity|lia].
  - intros Hn.
    destruct (Z.ltb_spec n (Z.of_nat (String.length commit))); [|lia].
    destruct (Z.ltb_spec n 0); [reflexivity|lia].
Qed.

Example GetCommit_sample :
  build.GetCommit "4f2a9c01d7e3" 7 = Some "4f2a9c0"
  /\ build.GetCommit "main" 7 = Some "main"
  /\ build.GetCommit "main" (-1) = None.
Proof. repeat split. Qed.

(** ** The Records of an answer *)

Lemma collect_app {X : Externals} (answers : list models.RR)
  (records : slice models.Record_) :
  app.collect answers records
  = match omap models.RecordFromRR answers with
    | [] => records
    | rs => Some (slice_elems records ++ rs)
    end.
Proof.
  unfold app.collect. revert records.
  induction answers as [|a answers IH]; intros records; [reflexivity|].
  cbn [fold_left]. rewrite IH. cbn [omap list_omap].
  change (list_omap _ _ models.RecordFromRR answers)
    with (omap models.RecordFromRR answers).
  destruct (models.RecordFromRR a) as [r|]; [|reflexivity].
  unfold slice_append. cbn [slice_elems default].
  destruct (omap models.RecordFromRR answers) as [|r' rs].
  - cbn [id]. reflexivity.
  - cbn [id]. rewrite <- app_assoc. reflexivity.
Qed.

Lemma collect_records_of {X : Externals} (answers : list models.RR) :
  app.collect answers None = records_of answers.
Proof.
  rewrite collect_app. unfold records_of.
  destruct (omap models.RecordFromRR answers); reflexivity.
Qed.

(** ** Programs: runs and calls of a sequence *)

Section Programs.
Context {X : Externals} {S : Type} (D : db.DB S) (E : app.env).

Lemma run_bind {A B} (m : app.prog A) (f : A -> app.prog B)
  (w : app.world S) :
  app.run D E (app.bind m f) w
  = app.run D E (f (fst (app.run D E m w))) (snd (app.run D E m w)).
Proof.
  revert w. induction m as [a|R e k IH]; intros w; [reflexivity|].
  simpl. destruct (app.handle D E e w) as [r w']. apply IH.
Qed.

Lemma calls_bind {A B} (m : app.prog A) (f : A -> app.prog B)
  (w : app.world S) :
  app.calls D E (app.bind m f) w
  = app.calls D E m w
    ++ app.calls D E (f (fst (app.run D E m w))) (snd (app.run D E m w)).
Proof.
  revert w. induction m as [a|R e k IH]; intros w; [reflexivity|].
  simpl. destruct (app.handle D E e w) as [r w'].
  rewrite IH, app_assoc. reflexivity.
Qed.

Ltac step :=
  cbn [negb app.run app.calls mbind app.prog_bind app.bind app.call
         app.handle app.db_call_of app.w_tick app.w_store app.w_log
         fst snd].

(** One resolution task, in full. *)
Lemma resolve_run (rsv : app.resolver) (query : models.Query)
  (w : app.world S) :
  match answer_of E query rsv with
  | Err _ =>
      app.calls D E (app.resolve rsv query) w = []
      /\ app.w_store (snd (app.run D E (app.resolve rsv query) w))
         = app.w_store w
      /\ app.w_tick (snd (app.run D E (app.resolve rsv query) w))
         = app.w_tick w
  | Ok (res, rtt) =>
      let l := lookup_of rsv res rtt (app.time_at E (app.w_tick w)) in
      app.calls D E (app.resolve rsv query) w
      = [app.CallCreateLookup (models.ID query) l]
      /\ app.w_store (snd (app.run D E (app.resolve rsv query) w))
         = fst (db.CreateLookup D (models.ID query) l (app.w_store w))
      /\ app.w_tick (snd (app.run D E (app.resolve rsv query) w))
         = Datatypes.S (app.w_tick w)
  end.
Proof.
  unfold answer_of, app.resolve. step.
  destruct (app.exchange E _ _ _ _) as [[res rtt]|err]; step;
    [|repeat split].
  assert (Hl : (if negb (app.Rcode res =? app.RcodeSuccess)
                then app.with_Error
                       (models.mkLookup (app.name rsv)
                          (Z.quot rtt app.Millisecond) "" None
                          (app.time_at E (app.w_tick w)))
                       (default "" (RcodeToString (app.Rcode res)))
                else app.with_Records
                       (models.mkLookup (app.name rsv)
                          (Z.quot rtt app.Millisecond) "" None
                          (app.time_at E (app.w_tick w)))
                       (app.collect (app.Answer res) None))
               = lookup_of rsv res rtt (app.time_at E (app.w_tick w))).
  { unfold lookup_of, failed_Lookup, records_of, app.with_Error,
      app.with_Records.
    destruct (app.Rcode res =? app.RcodeSuccess); [|reflexivity].
    simpl. f_equal. apply collect_records_of. }
  simpl errors_Is_opt. cbv iota. simpl models.Records.
  rewrite Hl.
  destruct (db.CreateLookup D (models.ID query) _ (app.w_store w))
    as [st [e|]]; repeat split.
Qed.

End Programs.

(** ** The fan-out *)

Section FanOut.
Context {X : Externals} {S : Type} (D : db.DB S) (E : app.env).
Context (query : models.Query).

Lemma lookups_from_answered (tick : nat) (rsvs : list app.resolver) :
  map models.Resolver (lookups_from E query tick rsvs)
  = map app.name (List.filter (answered E query) rsvs).
Proof.
  revert tick. induction rsvs as [|rsv rsvs IH]; intros tick; [reflexivity|].
  cbn [lookups_from List.filter]. unfold answered at 1.
  destruct (answer_of E query rsv) as [[res rtt]|err].
  - cbn [map]. rewrite IH. f_equal.
    unfold lookup_of, failed_Lookup.
    destruct (app.Rcode res =? app.RcodeSuccess); reflexivity.
  - apply IH.
Qed.

Lemma lookups_from_length (tick : nat) (rsvs : list app.resolver) :
  (length (lookups_from E query tick rsvs) <= length rsvs)%nat.
Proof.
  revert tick. induction rsvs as [|rsv rsvs IH]; intros tick; [reflexivity|].
  cbn [lookups_from length].
  destruct (answer_of E query rsv) as [[res rtt]|err]; cbn [length].
  - specialize (IH (Datatypes.S tick)). lia.
  - specialize (IH tick). lia.
Qed.

Lemma resolveEach_run (rsvs : list app.resolver) (w : app.world S) :
  let ls := lookups_from E query (app.w_tick w) rsvs in
  app.calls D E (app.resolveEach rsvs query) w
  = map (app.CallCreateLookup (models.ID query)) ls
  /\ app.w_store (snd (app.run D E (app.resolveEach rsvs query) w))
     = create_lookups D (models.ID query) ls (app.w_store w)
  /\ app.w_tick (snd (app.run D E (app.resolveEach rsvs query) w))
     = (app.w_tick w + length ls)%nat.
Proof.
  revert w. induction rsvs as [|rsv rsvs IH]; intros w.
  - cbn. repeat split. lia.
  - cbn [app.resolveEach lookups_from]. unfold mbind, app.prog_bind.
    rewrite calls_bind, run_bind.
    pose proof (resolve_run D E rsv query w) as Hr.
    destruct (answer_of E query rsv) as [[res rtt]|err].
    + destruct Hr as (Hc & Hs & Ht).
      specialize (IH (snd (app.run D E (app.resolve rsv query) w))).
      rewrite Ht, Hs in IH. destruct IH as (IHc & IHs & IHt).
      rewrite Hc, IHc, IHs, IHt. cbn. repeat split. lia.
    + destruct Hr as (Hc & Hs & Ht).
      specialize (IH (snd (app.run D E (app.resolve rsv query) w))).
      rewrite Ht, Hs in IH. destruct IH as (IHc & IHs & IHt).
      rewrite Hc, IHc, IHs, IHt. repeat split.
Qed.

Lemma resolveAll_run (rsvs : list app.resolver) (w : app.world S) :
  let ls := lookups_from E query (app.w_tick w) rsvs in
  let finished :=
    models.set_FinishedAt query
      (Some (app.time_at E (app.w_tick w + length ls))) in
  app.calls D E (app.resolveAll rsvs query) w
  = map (app.CallCreateLookup (models.ID query)) ls
    ++ [app.CallUpdateQuery finished]
  /\ app.w_store (snd (app.run D E (app.resolveAll rsvs query) w))
     = fst (db.UpdateQuery D finished
              (create_lookups D (models.ID query) ls (app.w_store w))).
Proof.
  intros ls finished. unfold app.resolveAll.
  unfold mbind, app.prog_bind. rewrite calls_bind, run_bind.
  destruct (resolveEach_run rsvs w) as (Hc & Hs & Ht). fold ls in Hc, Hs, Ht.
  rewrite Hc.
  destruct (app.run D E (app.resolveEach rsvs query) w) as [u w1].
  cbn [fst snd] in *.
  cbn [app.run app.calls app.bind app.call app.handle app.db_call_of].
  rewrite Hs, Ht. fold finished.
  destruct (db.UpdateQuery D finished _) as [st [e|]]; split; reflexivity.
Qed.

End FanOut.

(** X10. When the exchange succeeds with the success code, the task makes
    exactly one call to the database: a CreateLookup with the resolver's
    name, no Error, and as Records the images under RecordFromRR of the
    supported records of the answer, in the order of the answer; records
    of other types are dropped, and an answer without a supported record
    gives the nil slice, not an empty one. *)
Theorem resolve_success {X : Externals} {S : Type} (D : db.DB S)
  (E : app.env) (rsv : app.resolver) (query : models.Query)
  (w : app.world S) (res : app.Msg) (rtt : Z) :
  answer_of E query rsv = Ok (res, rtt) ->
  app.Rcode res = app.RcodeSuccess ->
  exists l,
    app.calls D E (app.resolve rsv query) w
    = [app.CallCreateLookup (models.ID query) l]
    /\ models.Resolver l = app.name rsv
    /\ models.Error l = ""
    /\ slice_elems (models.Records l)
       = omap models.RecordFromRR (app.Answer res)
    /\ (models.Records l = None <->
        Forall (fun rr => models.RecordFromRR rr = None) (app.Answer res))
    /\ (slice_len (models.Records l) <= length (app.Answer res))%nat.
Proof.
  intros Hans Hrc.
  pose proof (resolve_run D E rsv query w) as Hr. rewrite Hans in Hr.
  destruct Hr as (Hc & _ & _).
  eexists. split; [exact Hc|].
  unfold lookup_of. rewrite Hrc. cbn [Z.eqb app.RcodeSuccess].
  cbn [models.Resolver models.Error models.Records].
  split; [reflexivity|]. split; [reflexivity|].
  unfold records_of, slice_len.
  assert (Hlen : forall rs : list models.RR,
             (length (omap models.RecordFromRR rs) <= length rs)%nat).
  { induction rs as [|a rs IH]; [reflexivity|]. cbn [omap list_omap].
    change (list_omap _ _ models.RecordFromRR rs)
      with (omap models.RecordFromRR rs).
    destruct (models.RecordFromRR a); cbn; lia. }
  assert (Hnil : omap models.RecordFromRR (app.Answer res) = [] <->
                 Forall (fun rr => models.RecordFromRR rr = None)
                   (app.Answer res)).
  { induction (app.Answer res) as [|a rs IH]; [split; [constructor|reflexivity]|].
    cbn [omap list_omap].
    change (list_omap _ _ models.RecordFromRR rs)
      with (omap models.RecordFromRR rs).
    destruct (models.RecordFromRR a) eqn:Ha; cbn.
    - split; [discriminate|]. intros H. inversion H. congruence.
    - rewrite IH. split; [intros H; constructor; assumption|].
      intros H. inversion H. assumption. }
  specialize (Hlen (app.Answer res)).
  destruct (omap models.RecordFromRR (app.Answer res)) as [|r rs] eqn:Ho.
  - split; [reflexivity|]. split; [|cbn; lia].
    split; [intros _; apply Hnil; reflexivity|reflexivity].
  - split; [reflexivity|]. split; [|exact Hlen].
    split; [discriminate|]. intros H. apply Hnil in H. discriminate.
Qed.

(** The tasks of a fan-out are goroutines: the order in which they reach
    the database is not fixed by the code. Whatever that order, the
    resolvers that get an answer are the same. *)
Lemma answered_Permutation {X : Externals} (E : app.env)
  (query : models.Query) (sched rsvs : list app.resolver) :
  Permutation sched rsvs ->
  Permutation (map app.name (List.filter (answered E query) sched))
    (map app.name (List.filter (answered E query) rsvs)).
Proof.
  intros H. apply Permutation_map.
  induction H as [|x l l' _ IH|x y l|l l' l'' _ IH1 _ IH2]; cbn.
  - constructor.
  - destruct (answered E query x); [constructor|]; exact IH.
  - destruct (answered E query x), (answered E query y);
      try reflexivity. constructor.
  - etransitivity; eassumption.
Qed.

(** X11. In whatever order the tasks of Server.resolveAll run, its calls
    to the database are one CreateLookup, under the ID of the Query, for
    each resolver the DNS client gets an answer from and none for the
    others, followed by exactly one UpdateQuery, which passes the Query
    with FinishedAt set. There are never more CreateLookup calls than
    resolvers. *)
Theorem resolveAll_calls {X : Externals} {S : Type} (D : db.DB S)
  (E : app.env) (rsvs sched : list app.resolver) (query : models.Query)
  (w : app.world S) :
  Permutation sched rsvs ->
  exists ls t,
    app.calls D E (app.resolveAll sched query) w
    = map (app.CallCreateLookup (models.ID query)) ls
      ++ [app.CallUpdateQuery (models.set_FinishedAt query (Some t))]
    /\ Permutation (map models.Resolver ls)
         (map app.name (List.filter (answered E query) rsvs))
    /\ (length ls <= length rsvs)%nat.
Proof.
  intros Hp.
  destruct (resolveAll_run D E query sched w) as [Hc _].
  eexists _, _. split; [exact Hc|].
  split.
  - rewrite lookups_from_answered. apply answered_Permutation, Hp.
  - rewrite <- (Permutation_length Hp). apply lookups_from_length.
Qed.

Lemma resolveAll_calls_witness :
  exists ls t,
    app.calls file.DB Sample.network
      (app.resolveAll (rev Sample.resolvers) Sample.query)
      (app.mkWorld Sample.disk 0 [])
    = map (app.CallCreateLookup (models.ID Sample.query)) ls
      ++ [app.CallUpdateQuery (models.set_FinishedAt Sample.query (Some t))]
    /\ Permutation (map models.Resolver ls) ["A"].
Proof.
  destruct (resolveAll_calls file.DB Sample.network Sample.resolvers
              (rev Sample.resolvers) Sample.query
              (app.mkWorld Sample.disk 0 []))
    as (ls & t & Hc & Hp & _).
  - symmetry. apply Permutation_rev.
  - exists ls, t. split; [exact Hc|exact Hp].
Defined.

(** ** The file backend: exact effects *)

Section FileExact.
Context {X : Externals} {L : ExternalsLaws X}.
Import models file.




Lemma appended_cons (q : Query) (l : Lookup) (ls : list Lookup) :
  appended (set_Lookups q (slice_append (Lookups q) l)) ls
  = appended q (l :: ls).
Proof.
  unfold appended, slice_append. destruct ls as [|l' ls]; [reflexivity|].
  destruct q as [i t n lk c fin]. unfold set_Lookups. cbn.
  rewrite <- app_assoc. reflexivity.
Qed.


End FileExact.





Lemma resolve_success_witness :
  exists l,
    app.calls file.DB Sample.network
      (app.resolve (app.mkResolver "A" "192.0.2.1:53") Sample.query)
      (app.mkWorld Sample.disk 0 [])
    = [app.CallCreateLookup (models.ID Sample.query) l]
    /\ models.Resolver l = "A"
    /\ models.Error l = ""
    /\ slice_len (models.Records l) = 1%nat.
Proof.
  destruct (resolve_success file.DB Sample.network
              (app.mkResolver "A" "192.0.2.1:53") Sample.query
              (app.mkWorld Sample.disk 0 [])
              (app.mkMsg 0 [models.A (X := Sample.externals) 300
                              "93.184.216.34"])
              12000000)
    as (l & Hc & Hr & He & Hrec & _).
  - vm_compute. reflexivity.
  - reflexivity.
  - exists l. split; [exact Hc|]. split; [exact Hr|]. split; [exact He|].
    unfold slice_len. rewrite Hrec. reflexivity.
Defined.

(** ** Nothing stored is lost *)

Section AppendOnly.
Context {X : Externals} {L : ExternalsLaws X}.







End AppendOnly.



(** ** Server.GetQuery under the file backend *)

Section FileServer.
Context {X : Externals} {L : ExternalsLaws X}.

Lemma GetQuery_run {S : Type} (D : db.DB S) (E : app.env)
  (req : apiv1.GetQueryRequest) (id : UUID) (w : app.world S) :
  apiv1.ID req <> "" ->
  uuid_FromString (apiv1.ID req) = Some id ->
  app.run D E (app.GetQuery (Some req)) w
  = (match db.GetQueryByID D id (app.w_store w) with
     | Ok query => Ok query
     | Err err =>
         if errors_Is err ErrQueryNotFound then
           Err (ApiError (apiv1.mkError apiv1.ErrorCodeNotFound ""
                            "Query not found by ID"))
         else Err err
     end, w)
  /\ app.calls D E (app.GetQuery (Some req)) w = [app.CallGetQueryByID id].
Proof.
  intros Hne Hid. unfold app.GetQuery, apiv1.GetQueryRequest_Validate.
  destruct (String.eqb (apiv1.ID req) "") eqn:He;
    [apply String.eqb_eq in He; contradiction|].
  rewrite Hid.
  cbn [app.run app.calls mbind app.prog_bind app.bind app.call app.handle
         app.db_call_of].
  destruct (db.GetQueryByID D id (app.w_store w)) as [q|err];
    [split; reflexivity|].
  destruct (errors_Is err ErrQueryNotFound); split; reflexivity.
Qed.



Lemma index_of_first (id : UUID) (qs : list models.Query) (i : nat) :
  file.index_of id qs = Some i ->
  forall j q0, (j < i)%nat -> qs !! j = Some q0 -> models.ID q0 <> id.
Proof.
  revert i. induction qs as [|q qs IH]; intros i; cbn [file.index_of];
    [discriminate|].
  destruct (decide (models.ID q = id)) as [Hq|Hq].
  - intros [= <-] j q0 Hj. lia.
  - destruct (file.index_of id qs) as [k|]; [|discriminate].
    intros [= <-] j q0 Hj Hq0. destruct j as [|j].
    + cbn in Hq0. injection Hq0 as <-. exact Hq.
    + cbn in Hq0. apply (IH k eq_refl j q0); [lia|exact Hq0].
Qed.

Lemma readJSON_Err (fs : file.filesystem) (e : error) :
  file.readJSON fs = Err e ->
  errors_Is e ErrQueryNotFound = false /\ forall a, e <> ApiError a.
Proof.
  unfold file.readJSON. destruct fs as [v|].
  - destruct (json.unmarshal _ _ v); [discriminate|].
    intros [= <-]. split; [reflexivity|discriminate].
  - intros [= <-]. split; [reflexivity|discriminate].
Qed.

End FileServer.

(** X15. Server.GetQuery under the file backend, for a request whose ID is
    the text of a UUID and a file that can be read: it makes one call,
    GetQueryByID with the parsed ID, and changes nothing. It answers with
    the first Query of the file that carries the ID, if there is one, and
    otherwise with the NotFound error, whose status code is 404. *)
Theorem GetQuery_file_outcomes {X : Externals} (L : ExternalsLaws X)
  (E : app.env) (req : apiv1.GetQueryRequest) (id : UUID)
  (w : app.world file.filesystem) (f : file.format) :
  apiv1.ID req <> "" ->
  uuid_FromString (apiv1.ID req) = Some id ->
  file.readJSON (app.w_store w) = Ok f ->
  app.calls file.DB E (app.GetQuery (Some req)) w = [app.CallGetQueryByID id]
  /\ snd (app.run file.DB E (app.GetQuery (Some req)) w) = w
  /\ match file.index_of id (slice_elems (file.Queries f)) with
     | Some i =>
         exists q,
           fst (app.run file.DB E (app.GetQuery (Some req)) w) = Ok q
           /\ slice_elems (file.Queries f) !! i = Some q
           /\ models.ID q = id
           /\ forall j q0,
                (j < i)%nat ->
                slice_elems (file.Queries f) !! j = Some q0 ->
                models.ID q0 <> id
     | None =>
         exists e,
           fst (app.run file.DB E (app.GetQuery (Some req)) w)
           = Err (ApiError e)
           /\ apiv1.Code e = apiv1.ErrorCodeNotFound
           /\ apiv1.StatusCode e = 404
     end.
Proof.
  intros Hne Hid Hf.
  destruct (GetQuery_run file.DB E req id w Hne Hid) as [Hrun Hcalls].
  split; [exact Hcalls|]. rewrite Hrun. split; [reflexivity|].
  cbn [fst db.GetQueryByID file.DB].
  rewrite (file_GetQueryByID_eq _ f id Hf). unfold file.getQuery.
  destruct (file.index_of id (slice_elems (file.Queries f))) as [i|] eqn:Hi.
  - destruct (index_of_lookup _ _ _ Hi) as (q & Hq & Hqid).
    cbn. rewrite Hq. cbn. exists q.
    split; [reflexivity|]. split; [reflexivity|]. split; [exact Hqid|].
    apply index_of_first, Hi.
  - cbn. eexists. split; [reflexivity|]. split; reflexivity.
Qed.

Lemma GetQuery_file_outcomes_witness :
  app.calls file.DB Sample.network
    (app.GetQuery (Some {| apiv1.ID := "7" |}))
    (app.mkWorld Sample.disk 0 [])
  = [app.CallGetQueryByID (models.ID Sample.query)]
  /\ fst (app.run file.DB Sample.network
            (app.GetQuery (Some {| apiv1.ID := "7" |}))
            (app.mkWorld Sample.disk 0 []))
     = Ok Sample.query.
Proof.
  destruct (GetQuery_file_outcomes Sample_laws Sample.network
              {| apiv1.ID := "7" |} (models.ID Sample.query)
              (app.mkWorld Sample.disk 0 [])
              (file.mkFormat 1 (Some [Sample.query])))
    as (Hc & _ & Hq).
  - discriminate.
  - vm_compute. reflexivity.
  - vm_compute. reflexivity.
  - split; [exact Hc|]. vm_compute. reflexivity.
Defined.

(** ** A file that cannot be read *)

(** X16. Under the file backend, when the file is missing or does not
    decode, every operation fails and leaves the file as it is, and none
    of the errors is, or wraps, ErrQueryNotFound. A valid
    Server.CreateQuery then returns an error that is not an API error and
    starts no task. *)
Theorem file_unreadable {X : Externals} (fs : file.filesystem) (e0 : error)
  (id : UUID) (now : Time) (query : models.Query) (l : models.Lookup) :
  file.readJSON fs = Err e0 ->
  (exists e, file.GetQueryByID id fs = Err e
             /\ errors_Is e ErrQueryNotFound = false)
  /\ (exists e, file.CreateQuery id now query fs
                = (fs, models.set_CreatedAt (models.set_ID query id) now,
                   Some e)
                /\ errors_Is e ErrQueryNotFound = false)
  /\ (exists e, file.UpdateQuery query fs = (fs, Some e)
                /\ errors_Is e ErrQueryNotFound = false)
  /\ (exists e, file.CreateLookup id l fs = (fs, Some e)
                /\ errors_Is e ErrQueryNotFound = false)
  /\ forall E rsvs c tick log,
       apiv1.CreateQueryRequest_Validate (Some c) = None ->
       exists e,
         app.run file.DB E (app.CreateQuery rsvs (Some c))
           (app.mkWorld fs tick log)
         = ((Err e, []), app.mkWorld fs (2 + tick) log)
         /\ forall a, e <> ApiError a.
Proof.
  intros Hf. destruct (readJSON_Err fs e0 Hf) as [He0 _].
  split.
  { unfold file.GetQueryByID, file.read. rewrite Hf.
    eexists. split; [reflexivity|exact He0]. }
  split.
  { unfold file.CreateQuery. rewrite (write_unreadable fs e0 _ Hf).
    eexists. split; [reflexivity|exact He0]. }
  split.
  { unfold file.UpdateQuery. rewrite (write_unreadable fs e0 _ Hf).
    eexists. split; [reflexivity|exact He0]. }
  split.
  { unfold file.CreateLookup. rewrite (write_unreadable fs e0 _ Hf).
    eexists. split; [reflexivity|exact He0]. }
  intros E rsvs c tick log Hv. unfold app.CreateQuery. rewrite Hv.
  cbn [app.run mbind app.prog_bind app.bind app.call app.handle
         db.CreateQuery file.DB app.w_store app.w_tick app.w_log].
  unfold file.CreateQuery. rewrite (write_unreadable fs e0 _ Hf).
  eexists. split; [reflexivity|discriminate].
Qed.

Lemma file_unreadable_witness :
  exists e,
    file.GetQueryByID (models.ID Sample.query) None = Err e
    /\ errors_Is e ErrQueryNotFound = false.
Proof.
  destruct (file_unreadable None
              (Errorf "open: %w" (LibError "no such file or directory"))
              (models.ID Sample.query) 0%N Sample.query Sample.lookup)
    as (Hg & _).
  - reflexivity.
  - exact Hg.
Defined.

(** ** file.New *)



(** ** The user interface *)

(** X18. UI.Query with form values that fail validation shows the form
    again with the error, which has status code 400, and touches neither
    the database nor the world and starts no task. With values that pass,
    it makes one CreateQuery call; it redirects, with 303 See Other and to
    the path /query/ followed by the text of the ID the database assigned,
    and starts the one fan-out task, exactly when that call succeeds, and
    otherwise starts no task and does not redirect. *)
Theorem UI_Query_outcomes {X : Externals} {S : Type} (D : db.DB S)
  (E : app.env) (rsvs : list app.resolver) (type name : string)
  (w : app.world S) :
  let c := {| apiv1.Type_ := type; apiv1.Name := name |} in
  let r := app.run D E (ui.Query rsvs type name) w in
  let created :=
    db.CreateQuery D (app.uuid_at E (app.w_tick w))
      (app.time_at E (Datatypes.S (app.w_tick w)))
      (models.mkQuery uuid_Nil type name (Some []) time_zero None)
      (app.w_store w) in
  match apiv1.CreateQueryRequest_Validate (Some c) with
  | Some e =>
      r = ((Ok (ui.Index (Some e)), []), w)
      /\ app.calls D E (ui.Query rsvs type name) w = []
      /\ apiv1.StatusCode e = 400
  | None =>
      app.calls D E (ui.Query rsvs type name) w
      = [app.CallCreateQuery
           (models.mkQuery uuid_Nil type name (Some []) time_zero None)]
      /\ app.w_store (snd r) = fst (fst created)
      /\ match snd created with
         | None =>
             fst r
             = (Ok (ui.Redirect
                      ("/query/"
                       +:+ uuid_String (models.ID (snd (fst created))))
                      303),
                [app.resolveAll rsvs (snd (fst created))])
         | Some _ =>
             snd (fst r) = []
             /\ forall location status,
                  fst (fst r) <> Ok (ui.Redirect location status)
         end
  end.
Proof.
  intros c r created. subst r. unfold ui.Query, mbind, app.prog_bind.
  rewrite run_bind, calls_bind.
  destruct (apiv1.CreateQueryRequest_Validate (Some c)) as [e|] eqn:Hv.
  - unfold app.CreateQuery. fold c. rewrite Hv. cbn.
    split; [reflexivity|]. split; [reflexivity|].
    unfold apiv1.StatusCode.
    rewrite (Validate_BadRequest _ _ Hv). reflexivity.
  - unfold app.CreateQuery. fold c. rewrite Hv.
    cbn [app.run app.calls mbind app.prog_bind app.bind app.call app.handle
           app.db_call_of apiv1.Type_ apiv1.Name c].
    fold created. destruct created as [[st q] [err|]]; cbn.
    + destruct err; cbn; (split; [reflexivity|]); (split; [reflexivity|]);
        (split; [reflexivity|]); intros; discriminate.
    + split; [reflexivity|]. split; reflexivity.
Qed.



(** X20. Whatever the database, the route of UI.GetQuery renders one of
    two templates and never writes to the store: the page of the Query
    the database returned, or, for every error of Server.GetQuery, a
    missing Query and an ID that is no UUID included, the generic error
    page together with one ERROR line in the log. It never renders the
    not-found page. *)
Theorem UI_GetQuery_pages {X : Externals} {S : Type} (D : db.DB S)
  (E : app.env) (param : string) (w : app.world S) :
  let r := app.run D E (ui.handle (ui.GetQuery param)) w in
  app.w_store (snd r) = app.w_store w
  /\ ((exists id q,
         fst r = ui.GetQueryPage q
         /\ uuid_FromString param = Some id
         /\ db.GetQueryByID D id (app.w_store w) = Ok q
         /\ snd r = w)
      \/ (fst r = ui.ErrorPage
          /\ app.w_log (snd r)
             = app.w_log w ++ [("ERROR", "an unexpected error occurred")]
          /\ forall id q,
               uuid_FromString param = Some id ->
               db.GetQueryByID D id (app.w_store w) = Ok q ->
               param = "")).
Proof.
  intros r. subst r.
  unfold ui.handle, ui.GetQuery, mbind, app.prog_bind. rewrite !run_bind.
  unfold app.GetQuery, apiv1.GetQueryRequest_Validate. cbn [apiv1.ID].
  destruct (String.eqb param "") eqn:He.
  - apply String.eqb_eq in He. cbn. split; [reflexivity|]. right.
    split; [reflexivity|]. split; [reflexivity|]. intros; exact He.
  - destruct (uuid_FromString param) as [id|] eqn:Hid.
    + cbn [app.run mbind app.prog_bind app.bind app.call app.handle].
      destruct (db.GetQueryByID D id (app.w_store w)) as [q|err] eqn:Hq.
      * cbn. split; [reflexivity|]. left. exists id, q. auto.
      * destruct (errors_Is err ErrQueryNotFound); cbn;
          (split; [reflexivity|]); right;
          (split; [reflexivity|]); (split; [reflexivity|]);
          intros id' q' [= <-] Hq'; congruence.
    + cbn. split; [reflexivity|]. right.
      split; [reflexivity|]. split; [reflexivity|]. intros; discriminate.
Qed.

(** ** The fan-out under the Redis backend *)

Section RedisFanOut.
Context {X : Externals} {L : ExternalsLaws X}.
Import redis.

Lemma appended_fields (q : models.Query) (ls : list models.Lookup) :
  models.ID (appended q ls) = models.ID q
  /\ models.Type_ (appended q ls) = models.Type_ q
  /\ models.Name (appended q ls) = models.Name q
  /\ models.CreatedAt (appended q ls) = models.CreatedAt q
  /\ models.FinishedAt (appended q ls) = models.FinishedAt q
  /\ slice_elems (models.Lookups (appended q ls))
     = slice_elems (models.Lookups q) ++ ls
  /\ (models.Lookups q <> None -> models.Lookups (appended q ls) <> None).
Proof.
  unfold appended. destruct ls as [|l ls].
  - rewrite app_nil_r. repeat split; auto.
  - repeat split. discriminate.
Qed.

Lemma redis_create_lookups (ls : list models.Lookup) (st : server)
  (q : models.Query) :
  st !! queryKey (models.ID q) = Some (models.Query_enc q) ->
  models.Lookups q <> None ->
  create_lookups (redis.DB redisjson) (models.ID q) ls st
    !! queryKey (models.ID q)
  = Some (models.Query_enc (appended q ls)).
Proof.
  revert st q. induction ls as [|l ls IH]; intros st q Hq Hnn;
    [exact Hq|].
  unfold create_lookups. cbn [fold_left db.CreateLookup redis.DB].
  rewrite (redis_CreateLookup_stored st (models.ID q) l q Hq).
  destruct (models.Lookups q) as [ls0|] eqn:Hls; [|contradiction].
  cbn [fst].
  set (q1 := models.set_Lookups q (slice_append (Some ls0) l)).
  assert (Hid : models.ID q1 = models.ID q) by reflexivity.
  specialize (IH (<[queryKey (models.ID q) := models.Query_enc q1]> st) q1).
  unfold create_lookups in IH. cbn [db.CreateLookup redis.DB] in IH.
  rewrite Hid in IH. rewrite IH.
  - unfold q1. rewrite <- Hls. rewrite appended_cons. reflexivity.
  - apply lookup_insert_eq.
  - discriminate.
Qed.

End RedisFanOut.

(** X21. Under the Redis backend, on a server that behaves as RedisJSON
    does: a Server.CreateQuery with a valid request succeeds and starts
    one task, and once that task has run, in whatever order its
    resolutions reached the database, GetQueryByID returns the Query with
    FinishedAt set, the type and name of the request, and one Lookup for
    each resolver the DNS client got an answer from and none for the
    others. The empty, non-null Lookups that Server.CreateQuery stores is
    what the appends rest on. *)
Theorem redis_fan_out_finishes {X : Externals} (L : ExternalsLaws X)
  (E : app.env) (rsvs sched : list app.resolver)
  (c : apiv1.CreateQueryRequest) (w : app.world redis.server) :
  Permutation sched rsvs ->
  apiv1.CreateQueryRequest_Validate (Some c) = None ->
  exists q w1,
    app.run (redis.DB redis.redisjson) E (app.CreateQuery rsvs (Some c)) w
    = ((Ok q, [app.resolveAll rsvs q]), w1)
    /\ exists q' t,
         redis.GetQueryByID redis.redisjson (models.ID q)
           (app.w_store
              (snd (app.run (redis.DB redis.redisjson) E
                      (app.resolveAll sched q) w1)))
         = Ok q'
         /\ models.FinishedAt q' = Some t
         /\ models.ID q' = models.ID q
         /\ models.Type_ q' = apiv1.Type_ c
         /\ models.Name q' = apiv1.Name c
         /\ models.CreatedAt q' = models.CreatedAt q
         /\ Permutation
              (map models.Resolver (slice_elems (models.Lookups q')))
              (map app.name (List.filter (answered E q) rsvs))
         /\ (slice_len (models.Lookups q') <= length rsvs)%nat.
Proof.
  intros Hp Hv.
  set (id := app.uuid_at E (app.w_tick w)).
  set (q := models.mkQuery id (apiv1.Type_ c) (apiv1.Name c) (Some [])
              (app.time_at E (Datatypes.S (app.w_tick w))) None).
  set (w1 := app.mkWorld
               (<[redis.queryKey id := models.Query_enc q]> (app.w_store w))
               (2 + app.w_tick w) (app.w_log w)).
  assert (Hrun : app.run (redis.DB redis.redisjson) E
                   (app.CreateQuery rsvs (Some c)) w
                 = ((Ok q, [app.resolveAll rsvs q]), w1)).
  { unfold app.CreateQuery. rewrite Hv.
    cbn [app.run mbind app.prog_bind app.bind app.call app.handle
           db.CreateQuery redis.DB].
    rewrite redis_CreateQuery_eq. reflexivity. }
  exists q, w1. split; [exact Hrun|].
  assert (Hq : app.w_store w1 !! redis.queryKey (models.ID q)
               = Some (models.Query_enc q)).
  { apply lookup_insert_eq. }
  destruct (resolveAll_run (redis.DB redis.redisjson) E q sched w1)
    as [_ Hst].
  set (ls := lookups_from E q (app.w_tick w1) sched) in *.
  assert (Hls := redis_create_lookups ls (app.w_store w1) q Hq).
  specialize (Hls ltac:(discriminate)).
  destruct (appended_fields q ls) as (Ai & At & An & Ac & Af & Al & _).
  set (finished := models.set_FinishedAt q _) in *.
  assert (Hls' : create_lookups (redis.DB redis.redisjson) (models.ID q) ls
                   (app.w_store w1)
                   !! redis.queryKey (models.ID (appended q ls))
                 = Some (models.Query_enc (appended q ls))).
  { rewrite Ai. exact Hls. }
  pose proof (redis_UpdateQuery_doc _ finished (appended q ls) Hls') as Hup.
  cbn [db.UpdateQuery redis.DB] in Hst. rewrite <- Hst in Hup.
  unfold redis_updated in Hup.
  destruct (decide (models.ID finished = models.ID (appended q ls)))
    as [_|Hne]; [|exfalso; apply Hne; rewrite Ai; reflexivity].
  cbn [finished models.set_FinishedAt models.FinishedAt] in Hup.
  rewrite Ai in Hup.
  eexists _, _.
  split; [apply redis_GetQueryByID_stored; exact Hup|].
  cbn [models.set_FinishedAt models.FinishedAt models.ID models.Type_
         models.Name models.CreatedAt models.Lookups].
  split; [reflexivity|]. split; [exact Ai|]. split; [exact At|].
  split; [exact An|]. split; [exact Ac|].
  assert (He : slice_elems (models.Lookups (appended q ls)) = ls).
  { rewrite Al. reflexivity. }
  unfold slice_len. rewrite He.
  split.
  - unfold ls. rewrite lookups_from_answered.
    apply answered_Permutation, Hp.
  - rewrite <- (Permutation_length Hp). apply lookups_from_length.
Qed.

Lemma redis_fan_out_finishes_witness :
  let c := {| apiv1.Type_ := "A"; apiv1.Name := "example.com" |} in
  let w := app.mkWorld Sample.keys 0 [] in
  exists q w1,
    app.run (redis.DB redis.redisjson) Sample.network
      (app.CreateQuery Sample.resolvers (Some c)) w
    = ((Ok q, [app.resolveAll Sample.resolvers q]), w1)
    /\ exists q' t,
         redis.GetQueryByID redis.redisjson (models.ID q)
           (app.w_store
              (snd (app.run (redis.DB redis.redisjson) Sample.network
                      (app.resolveAll (rev Sample.resolvers) q) w1)))
         = Ok q'
         /\ models.FinishedAt q' = Some t.
Proof.
  intros c w.
  destruct (redis_fan_out_finishes Sample_laws Sample.network
              Sample.resolvers (rev Sample.resolvers) c w)
    as (q & w1 & Hrun & q' & t & Hget & Hfin & _).
  - symmetry. apply Permutation_rev.
  - vm_compute. reflexivity.
  - exists q, w1. split; [exact Hrun|].
    exists q', t. split; [exact Hget|exact Hfin].
Defined.
